(** * Twitter sentiment pipeline: a shallow embedding of [main.py]

    The script fetches tweets, scores each one with TextBlob, assembles one
    dictionary per tweet, writes them with [csv.DictWriter], prints a summary
    and optionally uploads the file to S3.

    Modelling choices
    - Python [str] is [string] (the UTF-8 bytes); LF and CR are single bytes
      in UTF-8 and never occur inside a multi-byte sequence, so the byte-wise
      [replace] below agrees with Python's.
    - Python [float] polarity is a rational [Q]: TextBlob returns a finite
      average of lexicon scores in [-1, 1] (never NaN or an infinity). The
      sign bit of the float is kept where it shows, in the score written to
      the file; the binary rounding error of the sums and quotients of the
      summary is not tracked.
    - Printing is taken to succeed (a console that accepts the script's
      text).
    - A dictionary whose iteration order is observable ([sentiment_counts])
      is an association list; [public_metrics], which is only indexed, is a
      [gmap string Z].
    - Effects (console, file system, object store, calls to the network
      clients) are threaded through a state-and-exception monad [M] over a
      [World]; the answers of the outside world are read from an [Env]. *)

From Stdlib Require Import ZArith QArith Qround Qabs Lqa Lia Ascii String List.
From stdpp Require Import base tactics option list strings pretty gmap.

Local Open Scope string_scope.
Local Open Scope list_scope.

(** ** Characters and strings *)

Definition LF : ascii := ascii_of_nat 10.
Definition CR : ascii := ascii_of_nat 13.
Definition SP : ascii := ascii_of_nat 32.

(** [s.replace(old, new)] for one-character [old] and [new]. *)
Fixpoint replace (old new : ascii) (s : string) : string :=
  match s with
  | EmptyString => EmptyString
  | String c rest =>
      String (if Ascii.eqb c old then new else c) (replace old new rest)
  end.

(** Membership of a character in a string, as a list of characters. *)
Fixpoint chars (s : string) : list ascii :=
  match s with
  | EmptyString => []
  | String c rest => c :: chars rest
  end.

Definition is_linebreak (c : ascii) : Prop := c = LF \/ c = CR.

Definition no_linebreak (s : string) : Prop :=
  Forall (fun c => ~ is_linebreak c) (chars s).

(** ** Numbers: the part of Python's [float] the script uses *)

Definition Qltb (a b : Q) : bool :=
  (Qnum a * QDen b <? Qnum b * QDen a)%Z.

Definition Qgtb (a b : Q) : bool := Qltb b a.

(** [round(x)] to the nearest integer, ties to the even neighbour. *)
Definition round_half_even (x : Q) : Z :=
  let f := Qfloor x in
  let r := (x - inject_Z f)%Q in
  if Qltb r (1 # 2) then f
  else if Qgtb r (1 # 2) then (f + 1)%Z
  else if Z.even f then f else (f + 1)%Z.

(** [round(x, 3)]. *)
Definition round3 (x : Q) : Q :=
  Qmake (round_half_even (x * 1000)) 1000.

(** ** Exceptions *)

Inductive exn : Type :=
| KeyError (key : string)
| ZeroDivisionError
| FileNotFoundError (path : string)
| Exception (what : string).

(** [a / b] on numbers. *)
Definition truediv (a b : Q) : exn + Q :=
  if Qeq_bool b 0 then inl ZeroDivisionError else inr (a / b)%Q.

(** ** Rendering values as text: Python's [str] *)

Definition zfill (width : nat) (s : string) : string :=
  string_of_list_ascii
    (repeat "0"%char (width - String.length s)) +:+ s.

Definition str_nat (n : nat) : string := pretty (N.of_nat n).

Definition str_int (z : Z) : string := pretty z.

(** The decimals of a float with [frac] thousandths: no trailing zeros, at
    least one digit. *)
Definition frac_text (frac : N) : string :=
  if negb (frac mod 10 =? 0)%N then zfill 3 (pretty frac)
  else if negb ((frac / 10) mod 10 =? 0)%N then zfill 2 (pretty (frac / 10)%N)
  else pretty (frac / 100)%N.

(** [str(x)] for a float [x = round(p, 3)] of a polarity [p], the only
    floats the script stores: the value is a multiple of 1/1000 and
    [signbit] is the sign bit of the float, which shows when the value is
    zero ([str(-0.0)] is ['-0.0']). The text is the sign, the integer part,
    a point and the decimals. *)
Definition str_float (signbit : bool) (q : Q) : string :=
  let k := Qfloor (q * 1000) in
  let a := Z.abs_N k in
  let minus := (k <? 0)%Z || ((k =? 0)%Z && signbit) in
  (if minus then "-" else "")
  +:+ pretty (a / 1000)%N +:+ "." +:+ frac_text (a mod 1000)%N.

(** Reading numbers back from text, as [int(s)] and [float(s)] do for the
    plain decimal notation. *)
Definition digit_value (c : ascii) : option N :=
  let n := N_of_ascii c in
  if (48 <=? n)%N && (n <=? 57)%N then Some (n - 48)%N else None.

(** The longest run of digits at the head of [s]: its value on top of [acc],
    the number of digits on top of [count], and what follows. *)
Fixpoint read_digits (s : string) (acc : N) (count : nat)
    : N * nat * string :=
  match s with
  | EmptyString => (acc, count, s)
  | String c rest =>
      match digit_value c with
      | Some d => read_digits rest (acc * 10 + d)%N (S count)
      | None => (acc, count, s)
      end
  end.

Definition read_int (s : string) : option Z :=
  match s with
  | EmptyString => None
  | String c rest =>
      if Ascii.eqb c "-" then
        match read_digits rest 0 0 with
        | (n, S _, EmptyString) => Some (- Z.of_N n)%Z
        | _ => None
        end
      else
        match read_digits s 0 0 with
        | (n, S _, EmptyString) => Some (Z.of_N n)
        | _ => None
        end
  end.

(** The sign bit and the value of [digits.digits] with an optional minus. *)
Definition read_decimal (s : string) : option (bool * Q) :=
  let '(minus, body) :=
    match s with
    | EmptyString => (false, s)
    | String c rest => if Ascii.eqb c "-" then (true, rest) else (false, s)
    end in
  match read_digits body 0 0 with
  | (whole, S _, String c decimals) =>
      if Ascii.eqb c "." then
        match read_digits decimals 0 0 with
        | (numerator, S n, EmptyString) =>
            let v := (inject_Z (Z.of_N whole)
                      + Qmake (Z.of_N numerator)
                          (Pos.pow 10 (Pos.of_succ_nat n)))%Q in
            Some (minus, if minus then (- v)%Q else v)
        | _ => None
        end
      else None
  | _ => None
  end.

(** Whether the decimals of [frac] thousandths read back as that fraction. *)
Definition frac_reads_back (frac : N) : bool :=
  match read_digits (frac_text frac) 0 0 with
  | (numerator, S n, EmptyString) =>
      (Z.of_N numerator * 1000
       =? Z.of_N frac * Z.pos (Pos.pow 10 (Pos.of_succ_nat n)))%Z
  | _ => false
  end.

Record DateTime : Type := {
  year : nat; month : nat; day : nat;
  hour : nat; minute : nat; second : nat;
  microsecond : nat;
  utc : bool   (* timezone-aware with offset +00:00, or naive *)
}.

(** [str(d)]: ISO format with a space separator. *)
Definition str_datetime (d : DateTime) : string :=
  zfill 4 (str_nat (year d)) +:+ "-" +:+ zfill 2 (str_nat (month d)) +:+ "-"
  +:+ zfill 2 (str_nat (day d)) +:+ " " +:+ zfill 2 (str_nat (hour d)) +:+ ":"
  +:+ zfill 2 (str_nat (minute d)) +:+ ":" +:+ zfill 2 (str_nat (second d))
  +:+ (if Nat.eqb (microsecond d) 0 then ""
       else "." +:+ zfill 6 (str_nat (microsecond d)))
  +:+ (if utc d then "+00:00" else "").

(** [d.strftime('%Y%m%d_%H%M%S')]. *)
Definition strftime_compact (d : DateTime) : string :=
  zfill 4 (str_nat (year d)) +:+ zfill 2 (str_nat (month d))
  +:+ zfill 2 (str_nat (day d)) +:+ "_" +:+ zfill 2 (str_nat (hour d))
  +:+ zfill 2 (str_nat (minute d)) +:+ zfill 2 (str_nat (second d)).

(** The values a row dictionary holds. *)
Inductive PyVal : Type :=
| VInt (z : Z)
| VStr (s : string)
| VFloat (signbit : bool) (q : Q)
| VTime (d : DateTime)
| VNone.

(** How the csv writer turns a value into field text: [None] becomes the
    empty string, everything else goes through [str]. *)
Definition csv_field (v : PyVal) : string :=
  match v with
  | VInt z => str_int z
  | VStr s => s
  | VFloat signbit q => str_float signbit q
  | VTime d => str_datetime d
  | VNone => ""
  end.

(** ** Data model *)

Module Tweet.
(** A [tweepy.Tweet]: [created_at] and [public_metrics] are [None] when the
    provider omits them. *)
Record t : Type := {
  id : Z;
  text : string;
  created_at : option DateTime;
  public_metrics : option (gmap string Z)
}.
End Tweet.

(** The dictionary built for each tweet by [process_tweets]. The float
    under ['polarity_score'] is held as its value, [polarity_score], and its
    sign bit, [polarity_signbit]. *)
Record TweetData : Type := {
  tweet_id : Z;
  text : string;
  created_at : option DateTime;
  sentiment : string;
  polarity_score : Q;
  polarity_signbit : bool;
  retweet_count : Z;
  like_count : Z
}.

(** [rowdict.get(key, restval)] with the writer's default [restval = '']. *)
Definition rowdict_get (r : TweetData) (key : string) : PyVal :=
  if String.eqb key "tweet_id" then VInt (tweet_id r)
  else if String.eqb key "text" then VStr (text r)
  else if String.eqb key "created_at" then
    match created_at r with Some d => VTime d | None => VNone end
  else if String.eqb key "sentiment" then VStr (sentiment r)
  else if String.eqb key "polarity_score" then
    VFloat (polarity_signbit r) (polarity_score r)
  else if String.eqb key "retweet_count" then VInt (retweet_count r)
  else if String.eqb key "like_count" then VInt (like_count r)
  else VStr "".

Record Client : Type := { bearer_token : string }.

(** The response of a search: [data] is [None] when nothing matched. *)
Record Response : Type := { data : option (list Tweet.t) }.

(** Truthiness of the objects the script tests. *)
Definition truthy_list {A : Type} (l : list A) : bool :=
  match l with [] => false | _ :: _ => true end.

Definition truthy_metrics (m : option (gmap string Z)) : bool :=
  match m with
  | None => false
  | Some d => negb (Nat.eqb (size d) 0)
  end.

Definition truthy_data (d : option (list Tweet.t)) : bool :=
  match d with None => false | Some l => truthy_list l end.

(** [d[key]]. *)
Definition getitem (d : gmap string Z) (key : string) : exn + Z :=
  match d !! key with
  | Some v => inr v
  | None => inl (KeyError key)
  end.

(** ** Configuration constants *)

Record Config : Type := {
  BEARER_TOKEN : string;
  AWS_BUCKET_NAME : string;
  SEARCH_KEYWORD : string;
  TWEET_COUNT : Z
}.

(** The constants as they stand in the script. *)
Definition default_config : Config := {|
  BEARER_TOKEN := "YOUR_BEARER_TOKEN";
  AWS_BUCKET_NAME := "YOUR_BUCKET_NAME";
  SEARCH_KEYWORD := "AWS";
  TWEET_COUNT := 10
|}.

(** ** The outside world *)

(** Lines the script prints. Each constructor stands for one [print]; the
    numbers it interpolates are kept as values rather than formatted. *)
Inductive Msg : Type :=
| MsgConnected
| MsgConnectError (e : exn)
| MsgFetched (n : nat)
| MsgNoTweets
| MsgFetchError (e : exn)
| MsgTweet (i : nat) (label : string) (polarity : Q)
| MsgSaved (filename : string)
| MsgSaveError (e : exn)
| MsgUploaded (bucket key : string)
| MsgUploadError (e : exn)
| MsgCredentialsHint
| MsgNoResults
| MsgRule
| MsgSummaryTitle
| MsgTotal (n : nat)
| MsgKeyword (k : string)
| MsgDistributionHeader
| MsgDistribution (label : string) (count : nat) (percentage : Q) (bar : nat)
| MsgAverage (avg : Q)
| MsgOverall (label : string)
| MsgBanner
| MsgStep1
| MsgStep2 (count : Z) (keyword : string)
| MsgStep3
| MsgStep4
| MsgStep5
| MsgSkipped
| MsgComplete
| MsgResultsIn (filename : string)
| MsgExcelHint.

(** Calls that leave the process. *)
Inductive ExtCall : Type :=
| CallTwitterClient (token : string)
| CallSearch (query : string) (max_results : Z)
| CallOpen (filename : string)
| CallBoto3Client
| CallUpload (filename bucket key : string).

Inductive Event : Type :=
| Printed (m : Msg)
| Call (c : ExtCall).

(** A csv file as its rows of fields. *)
Abbreviation Csv := (list (list string)).

Record World : Type := {
  trace : list Event;                       (* oldest first *)
  disk : gmap string Csv;                   (* local files by name *)
  s3_objects : gmap (string * string) Csv   (* objects by bucket and key *)
}.

(** What the outside world answers. [textblob_polarity] is the value of
    the float TextBlob returns, in [-1, 1], and [textblob_signbit] its sign
    bit, which the value does not show when it is zero. Writes to a file are
    buffered: [write_fault] tells at which write, the flush on closing being
    the last, an error surfaces, and [torn_file] what the file then holds,
    given the rows written so far. *)
Record Env : Type := {
  textblob_polarity : string -> Q;
  textblob_signbit : string -> bool;
  tweepy_Client : string -> exn + Client;
  search_recent_tweets : Client -> string -> Z -> exn + Response;
  open_fault : string -> option exn;
  write_fault : string -> nat -> option exn;
  torn_file : string -> Csv -> Csv;
  boto3_client : option exn;
  upload_fault : string -> string -> string -> option exn;
  datetime_now : DateTime
}.

(** ** The monad of the script: state and exceptions *)

Definition M (A : Type) : Type := World -> (exn + A) * World.

Definition ret {A : Type} (a : A) : M A := fun w => (inr a, w).

Definition raise {A : Type} (e : exn) : M A := fun w => (inl e, w).

Definition bind {A B : Type} (m : M A) (k : A -> M B) : M B :=
  fun w =>
    match m w with
    | (inr a, w') => k a w'
    | (inl e, w') => (inl e, w')
    end.

(** [try: m except Exception as e: handler e]. *)
Definition try_except {A : Type} (m : M A) (handler : exn -> M A) : M A :=
  fun w =>
    match m w with
    | (inr a, w') => (inr a, w')
    | (inl e, w') => handler e w'
    end.

Definition lift {A : Type} (r : exn + A) : M A :=
  match r with inl e => raise e | inr a => ret a end.

Declare Scope py_scope.
Delimit Scope py_scope with py.
Notation "'let!' x ':=' m 'in' k" := (bind m (fun x => k))
  (at level 10, x pattern, m at level 100, k at level 200) : py_scope.
Notation "m '>>' k" := (bind m (fun _ => k))
  (at level 90, right associativity) : py_scope.

(** The world after the events [evs] have been appended to its trace. *)
Definition log (evs : list Event) (w : World) : World :=
  {| trace := trace w ++ evs; disk := disk w; s3_objects := s3_objects w |}.

Definition emit (e : Event) : M unit := fun w => (inr tt, log [e] w).

Definition print (m : Msg) : M unit := emit (Printed m).

Definition get_world : M World := fun w => (inr w, w).

Definition set_disk (d : gmap string Csv) : M unit :=
  fun w => (inr tt, {| trace := trace w; disk := d;
                       s3_objects := s3_objects w |}).

Definition set_s3 (o : gmap (string * string) Csv) : M unit :=
  fun w => (inr tt, {| trace := trace w; disk := disk w; s3_objects := o |}).

Fixpoint for_each {A : Type} (l : list A) (body : A -> M unit) : M unit :=
  match l with
  | [] => ret tt
  | x :: rest => bind (body x) (fun _ => for_each rest body)
  end.

Local Open Scope py_scope.

(** ** The script *)

Section Pipeline.

Variable env : Env.
Variable cfg : Config.

(** *** External calls, answered by [env] *)

Definition Client_new (token : string) : M Client :=
  emit (Call (CallTwitterClient token)) >> lift (tweepy_Client env token).

Definition client_search (client : Client) (query : string)
    (max_results : Z) : M Response :=
  emit (Call (CallSearch query max_results)) >>
  lift (search_recent_tweets env client query max_results).

(** [open(filename, mode='w')]: the file is created or truncated. *)
Definition open_w (filename : string) : M unit :=
  emit (Call (CallOpen filename)) >>
  match open_fault env filename with
  | Some e => raise e
  | None => let! w := get_world in set_disk (<[filename := []]> (disk w))
  end.

(** One row written to an open file. The write goes through a buffer: when
    an error surfaces here, the file holds what [torn_file] says. *)
Definition writer_writerow (filename : string) (row : list string) : M unit :=
  let! w := get_world in
  let rows := default [] (disk w !! filename) in
  match write_fault env filename (length rows) with
  | Some e =>
      set_disk (<[filename := torn_file env filename rows]> (disk w)) >>
      raise e
  | None => set_disk (<[filename := rows ++ [row]]> (disk w))
  end.

(** Leaving the [with] block: what was written is flushed and the file
    closed. *)
Definition file_close (filename : string) : M unit :=
  let! w := get_world in
  let rows := default [] (disk w !! filename) in
  match write_fault env filename (length rows) with
  | Some e =>
      set_disk (<[filename := torn_file env filename rows]> (disk w)) >>
      raise e
  | None => ret tt
  end.

Definition boto3_client_s3 : M unit :=
  emit (Call CallBoto3Client) >>
  match boto3_client env with
  | Some e => raise e
  | None => ret tt
  end.

(** [s3.upload_file(filename, bucket, key)]. *)
Definition s3_upload_file (filename bucket key : string) : M unit :=
  emit (Call (CallUpload filename bucket key)) >>
  let! w := get_world in
  match disk w !! filename with
  | None => raise (FileNotFoundError filename)
  | Some content =>
      match upload_fault env filename bucket key with
      | Some e => raise e
      | None => set_s3 (<[(bucket, key) := content]> (s3_objects w))
      end
  end.

(** *** [authenticate_twitter] *)

Definition authenticate_twitter : M (option Client) :=
  try_except
    (let! client := Client_new (BEARER_TOKEN cfg) in
     print MsgConnected >>
     ret (Some client))
    (fun e => print (MsgConnectError e) >> ret None).

(** *** [fetch_tweets] *)

Definition fetch_tweets (client : Client) (keyword : string) (count : Z)
    : M (list Tweet.t) :=
  try_except
    (let query := keyword +:+ " lang:en -is:retweet" in
     let! tweets := client_search client query count in
     if truthy_data (data tweets) then
       let tweets_data := default [] (data tweets) in
       print (MsgFetched (length tweets_data)) >>
       ret tweets_data
     else
       print MsgNoTweets >>
       ret [])
    (fun e => print (MsgFetchError e) >> ret []).

(** *** [analyze_sentiment] *)

Definition analyze_sentiment (tweet_text : string) : string * Q :=
  let polarity := textblob_polarity env tweet_text in
  let sentiment :=
    if Qgtb polarity 0 then "positive"
    else if Qltb polarity 0 then "negative"
    else "neutral" in
  (sentiment, polarity).

(** *** [process_tweets] *)

(** [tweet.public_metrics[key] if tweet.public_metrics else 0]. *)
Definition metric_or_zero (tweet : Tweet.t) (key : string) : exn + Z :=
  if truthy_metrics (Tweet.public_metrics tweet) then
    match Tweet.public_metrics tweet with
    | Some d => getitem d key
    | None => inr 0%Z
    end
  else inr 0%Z.

(** The body of the loop for one tweet: the dictionary and the values
    printed, or the exception raised while building the dictionary. *)
Definition tweet_row (tweet : Tweet.t) : exn + (TweetData * (string * Q)) :=
  let clean_text := replace CR SP (replace LF SP (Tweet.text tweet)) in
  let '(sentiment, polarity) := analyze_sentiment clean_text in
  match metric_or_zero tweet "retweet_count" with
  | inl e => inl e
  | inr retweets =>
      match metric_or_zero tweet "like_count" with
      | inl e => inl e
      | inr likes =>
          inr ({| tweet_id := Tweet.id tweet;
                  text := clean_text;
                  created_at := Tweet.created_at tweet;
                  sentiment := sentiment;
                  polarity_score := round3 polarity;
                  polarity_signbit :=
                    Qltb polarity 0
                    || (Qeq_bool polarity 0 && textblob_signbit env clean_text);
                  retweet_count := retweets;
                  like_count := likes |},
               (sentiment, polarity))
      end
  end.

(** The loop [for i, tweet in enumerate(tweets, 1)], appending to
    [results]. *)
Fixpoint process_loop (i : nat) (tweets : list Tweet.t)
    (results : list TweetData) : M (list TweetData) :=
  match tweets with
  | [] => ret results
  | tweet :: rest =>
      let! (tweet_data, (sentiment, polarity)) := lift (tweet_row tweet) in
      let results := results ++ [tweet_data] in
      print (MsgTweet i sentiment polarity) >>
      process_loop (S i) rest results
  end.

Definition process_tweets (tweets : list Tweet.t) : M (list TweetData) :=
  process_loop 1 tweets [].

(** *** [save_to_csv] *)

Definition headers : list string :=
  ["tweet_id"; "text"; "created_at"; "sentiment";
   "polarity_score"; "retweet_count"; "like_count"].

(** [DictWriter._dict_to_list]: the values in the order of [fieldnames]. *)
Definition dict_to_list (fieldnames : list string) (r : TweetData)
    : list string :=
  map (fun key => csv_field (rowdict_get r key)) fieldnames.

Definition writeheader (filename : string) (fieldnames : list string)
    : M unit :=
  writer_writerow filename fieldnames.

Definition writerows (filename : string) (fieldnames : list string)
    (results : list TweetData) : M unit :=
  for_each results
    (fun r => writer_writerow filename (dict_to_list fieldnames r)).

Definition save_to_csv (results : list TweetData) (filename : string)
    : M bool :=
  try_except
    (open_w filename >>
     writeheader filename headers >>
     writerows filename headers results >>
     file_close filename >>
     print (MsgSaved filename) >>
     ret true)
    (fun e => print (MsgSaveError e) >> ret false).

(** *** [upload_to_s3] *)

Definition upload_to_s3 (filename bucket_name : string) : M bool :=
  try_except
    (boto3_client_s3 >>
     let timestamp := strftime_compact (datetime_now env) in
     let s3_key := "sentiment_analysis/" +:+ timestamp +:+ "_" +:+ filename in
     s3_upload_file filename bucket_name s3_key >>
     print (MsgUploaded bucket_name s3_key) >>
     ret true)
    (fun e =>
       print (MsgUploadError e) >>
       print MsgCredentialsHint >>
       ret false).

(** *** [generate_summary] *)

(** [d[key] += 1] on a dictionary kept in insertion order. *)
Fixpoint dict_incr (key : string) (d : list (string * nat))
    : exn + list (string * nat) :=
  match d with
  | [] => inl (KeyError key)
  | (k, v) :: rest =>
      if String.eqb k key then inr ((k, S v) :: rest)
      else match dict_incr key rest with
           | inl e => inl e
           | inr rest' => inr ((k, v) :: rest')
           end
  end.

(** The counting loop over [results]. *)
Fixpoint count_loop (results : list TweetData)
    (sentiment_counts : list (string * nat)) (total_polarity : Q)
    : exn + (list (string * nat) * Q) :=
  match results with
  | [] => inr (sentiment_counts, total_polarity)
  | result :: rest =>
      match dict_incr (sentiment result) sentiment_counts with
      | inl e => inl e
      | inr counts =>
          count_loop rest counts (total_polarity + polarity_score result)%Q
      end
  end.

(** [int(x)]: truncation towards zero. *)
Definition int_of (x : Q) : Z :=
  if Qltb x 0 then Qceiling x else Qfloor x.

(** The body of the loop over [sentiment_counts.items()]. *)
Definition distribution_line (total_tweets : nat) (item : string * nat)
    : M unit :=
  let '(sentiment, count) := item in
  let! ratio := lift (truediv (inject_Z (Z.of_nat count))
                              (inject_Z (Z.of_nat total_tweets))) in
  let percentage := (ratio * 100)%Q in
  let! fifth := lift (truediv percentage 5) in
  let bar := Z.to_nat (int_of fifth) in
  print (MsgDistribution sentiment count percentage bar).

Definition generate_summary (results : list TweetData) : M unit :=
  if negb (truthy_list results) then
    print MsgNoResults
  else
    let sentiment_counts := [("positive", 0); ("negative", 0); ("neutral", 0)] in
    let total_polarity := 0%Q in
    let! (sentiment_counts, total_polarity) :=
      lift (count_loop results sentiment_counts total_polarity) in
    let total_tweets := length results in
    print MsgRule >>
    print MsgSummaryTitle >>
    print MsgRule >>
    print (MsgTotal total_tweets) >>
    print (MsgKeyword (SEARCH_KEYWORD cfg)) >>
    print MsgDistributionHeader >>
    for_each sentiment_counts (distribution_line total_tweets) >>
    let! avg_polarity :=
      lift (truediv total_polarity (inject_Z (Z.of_nat total_tweets))) in
    print (MsgAverage avg_polarity) >>
    let overall :=
      if Qgtb avg_polarity (1 # 10) then "POSITIVE"
      else if Qltb avg_polarity (- (1 # 10)) then "NEGATIVE"
      else "NEUTRAL" in
    print (MsgOverall overall) >>
    print MsgRule.

(** *** [main] *)

Definition main : M unit :=
  print MsgBanner >>
  print MsgRule >>
  print MsgStep1 >>
  let! client := authenticate_twitter in
  match client with
  | None => ret tt
  | Some client =>
      print (MsgStep2 (TWEET_COUNT cfg) (SEARCH_KEYWORD cfg)) >>
      let! tweets := fetch_tweets client (SEARCH_KEYWORD cfg) (TWEET_COUNT cfg) in
      if negb (truthy_list tweets) then ret tt
      else
        print MsgStep3 >>
        let! results := process_tweets tweets in
        print MsgStep4 >>
        let csv_filename := "tweet_sentiments.csv" in
        let! saved := save_to_csv results csv_filename in
        if negb saved then ret tt
        else
          generate_summary results >>
          print MsgStep5 >>
          (if negb (String.eqb (AWS_BUCKET_NAME cfg) "YOUR_BUCKET_NAME") then
             upload_to_s3 csv_filename (AWS_BUCKET_NAME cfg) >> ret tt
           else
             print MsgSkipped) >>
          print MsgComplete >>
          print (MsgResultsIn csv_filename) >>
          print MsgExcelHint
  end.

End Pipeline.

(** ** Vocabulary of the properties *)

(** The engagement counters can be read: the metrics object is falsy, or it
    holds both keys. *)
Definition metrics_complete (tweet : Tweet.t) : bool :=
  match Tweet.public_metrics tweet with
  | None => true
  | Some d =>
      Nat.eqb (size d) 0
      || (bool_decide (is_Some (d !! "retweet_count"))
          && bool_decide (is_Some (d !! "like_count")))
  end.

(** A line break replaced by a space, any other character kept. *)
Definition despace (c : ascii) : ascii :=
  if Ascii.eqb c LF || Ascii.eqb c CR then SP else c.

(** The lines printed by the loop of [process_tweets], numbered from [i]. *)
Fixpoint tweet_msgs (i : nat) (outs : list (TweetData * (string * Q)))
    : list Event :=
  match outs with
  | [] => []
  | (_, (label, polarity)) :: rest =>
      Printed (MsgTweet i label polarity) :: tweet_msgs (S i) rest
  end.

(** What can be read off the events of a run. *)
Definition assembly_reached (evs : list Event) : bool :=
  existsb (fun e => match e with Printed MsgStep3 => true | _ => false end) evs.

Definition export_attempted (evs : list Event) : bool :=
  existsb (fun e => match e with Call (CallOpen _) => true | _ => false end) evs.

Definition export_succeeded (evs : list Event) : bool :=
  existsb (fun e => match e with Printed (MsgSaved _) => true | _ => false end) evs.

Definition export_failed (evs : list Event) : bool :=
  existsb (fun e => match e with Printed (MsgSaveError _) => true | _ => false end)
    evs.

Definition summary_printed (evs : list Event) : bool :=
  existsb (fun e => match e with Printed MsgSummaryTitle => true | _ => false end)
    evs.

Definition publish_attempted (evs : list Event) : bool :=
  existsb (fun e => match e with
                    | Call CallBoto3Client | Call (CallUpload _ _ _) => true
                    | _ => false
                    end) evs.

Definition publish_failed (evs : list Event) : bool :=
  existsb (fun e => match e with Printed (MsgUploadError _) => true | _ => false end)
    evs.

Definition publish_skipped (evs : list Event) : bool :=
  existsb (fun e => match e with Printed MsgSkipped => true | _ => false end) evs.

Definition run_completed (evs : list Event) : bool :=
  existsb (fun e => match e with Printed MsgComplete => true | _ => false end) evs.

(** The block printed by [generate_summary] for [n] records: the title
    lines, one line per label, then the average and the overall label. *)
Definition summary_block (cfg : Config) (n : nat) (evs : list Event) : Prop :=
  exists dist avg overall,
    evs = [Printed MsgRule; Printed MsgSummaryTitle; Printed MsgRule;
           Printed (MsgTotal n); Printed (MsgKeyword (SEARCH_KEYWORD cfg));
           Printed MsgDistributionHeader]
          ++ dist ++
          [Printed (MsgAverage avg); Printed (MsgOverall overall); Printed MsgRule]
    /\ Forall (fun e => exists l c p b, e = Printed (MsgDistribution l c p b)) dist.

(** The events with which every run starts, and those of a successful
    connection followed by the search. *)
Definition opening (cfg : Config) : list Event :=
  [Printed MsgBanner; Printed MsgRule; Printed MsgStep1;
   Call (CallTwitterClient (BEARER_TOKEN cfg))].

Definition search_query (cfg : Config) : string :=
  SEARCH_KEYWORD cfg +:+ " lang:en -is:retweet".

Definition querying (cfg : Config) : list Event :=
  [Printed MsgConnected;
   Printed (MsgStep2 (TWEET_COUNT cfg) (SEARCH_KEYWORD cfg));
   Call (CallSearch (search_query cfg) (TWEET_COUNT cfg))].

Definition assembling (tweets : list Tweet.t)
    (outs : list (TweetData * (string * Q))) : list Event :=
  [Printed (MsgFetched (length tweets)); Printed MsgStep3] ++ tweet_msgs 1 outs.

Definition closing : list Event :=
  [Printed MsgComplete; Printed (MsgResultsIn "tweet_sentiments.csv");
   Printed MsgExcelHint].

(** The file [save_to_csv] leaves behind when nothing fails. *)
Definition csv_of (results : list TweetData) : Csv :=
  headers :: map (dict_to_list headers) results.

(** The key under which [upload_to_s3] stores a file. *)
Definition object_key (env : Env) (filename : string) : string :=
  "sentiment_analysis/" +:+ strftime_compact (datetime_now env)
  +:+ "_" +:+ filename.

(** The last stage of a run that got past the export: the events of the
    publish step and the object store it leaves. *)
Inductive publish_run (env : Env) (cfg : Config) (content : Csv)
    (store : gmap (string * string) Csv)
    : list Event -> gmap (string * string) Csv -> Prop :=
| Publish_skipped :
    AWS_BUCKET_NAME cfg = "YOUR_BUCKET_NAME" ->
    publish_run env cfg content store [Printed MsgSkipped] store
| Publish_failed (calls : list Event) (e : exn) :
    AWS_BUCKET_NAME cfg <> "YOUR_BUCKET_NAME" ->
    Forall (fun c => exists x, c = Call x) calls ->
    publish_run env cfg content store
      (Call CallBoto3Client :: calls
       ++ [Printed (MsgUploadError e); Printed MsgCredentialsHint])
      store
| Publish_done (key : string) :
    AWS_BUCKET_NAME cfg <> "YOUR_BUCKET_NAME" ->
    key = object_key env "tweet_sentiments.csv" ->
    boto3_client env = None ->
    upload_fault env "tweet_sentiments.csv" (AWS_BUCKET_NAME cfg) key = None ->
    publish_run env cfg content store
      [Call CallBoto3Client;
       Call (CallUpload "tweet_sentiments.csv" (AWS_BUCKET_NAME cfg) key);
       Printed (MsgUploaded (AWS_BUCKET_NAME cfg) key)]
      (<[(AWS_BUCKET_NAME cfg, key) := content]> store).

(** Every way a run of [main] can go, with its result and final world. *)
Inductive main_run (env : Env) (cfg : Config) (w : World)
    : exn + unit -> World -> Prop :=
| Run_auth_failed (e : exn) :
    tweepy_Client env (BEARER_TOKEN cfg) = inl e ->
    main_run env cfg w (inr tt)
      (log (opening cfg ++ [Printed (MsgConnectError e)]) w)
| Run_fetch_failed (c : Client) (e : exn) :
    tweepy_Client env (BEARER_TOKEN cfg) = inr c ->
    search_recent_tweets env c (search_query cfg) (TWEET_COUNT cfg) = inl e ->
    main_run env cfg w (inr tt)
      (log (opening cfg ++ querying cfg ++ [Printed (MsgFetchError e)]) w)
| Run_fetch_empty (c : Client) (resp : Response) :
    tweepy_Client env (BEARER_TOKEN cfg) = inr c ->
    search_recent_tweets env c (search_query cfg) (TWEET_COUNT cfg) = inr resp ->
    truthy_data (data resp) = false ->
    main_run env cfg w (inr tt)
      (log (opening cfg ++ querying cfg ++ [Printed MsgNoTweets]) w)
| Run_assembly_raised (c : Client) (resp : Response) (tweets : list Tweet.t)
    (key : string) (outs : list (TweetData * (string * Q))) :
    tweepy_Client env (BEARER_TOKEN cfg) = inr c ->
    search_recent_tweets env c (search_query cfg) (TWEET_COUNT cfg) = inr resp ->
    data resp = Some tweets ->
    tweets <> [] ->
    main_run env cfg w (inl (KeyError key))
      (log (opening cfg ++ querying cfg ++ assembling tweets outs) w)
| Run_export_failed (c : Client) (resp : Response) (tweets : list Tweet.t)
    (outs : list (TweetData * (string * Q))) (e : exn) (d : gmap string Csv) :
    tweepy_Client env (BEARER_TOKEN cfg) = inr c ->
    search_recent_tweets env c (search_query cfg) (TWEET_COUNT cfg) = inr resp ->
    data resp = Some tweets ->
    tweets <> [] ->
    Forall2 (fun t o => tweet_row env t = inr o) tweets outs ->
    main_run env cfg w (inr tt)
      {| trace := trace w ++ opening cfg ++ querying cfg
                  ++ assembling tweets outs
                  ++ [Printed MsgStep4; Call (CallOpen "tweet_sentiments.csv");
                      Printed (MsgSaveError e)];
         disk := d;
         s3_objects := s3_objects w |}
| Run_exported (c : Client) (resp : Response) (tweets : list Tweet.t)
    (outs : list (TweetData * (string * Q)))
    (summary publish : list Event) (store : gmap (string * string) Csv) :
    tweepy_Client env (BEARER_TOKEN cfg) = inr c ->
    search_recent_tweets env c (search_query cfg) (TWEET_COUNT cfg) = inr resp ->
    data resp = Some tweets ->
    tweets <> [] ->
    Forall2 (fun t o => tweet_row env t = inr o) tweets outs ->
    summary_block cfg (length tweets) summary ->
    (forall w0,
       generate_summary cfg (map fst outs) w0 = (inr tt, log summary w0)) ->
    publish_run env cfg (csv_of (map fst outs)) (s3_objects w) publish store ->
    main_run env cfg w (inr tt)
      {| trace := trace w ++ opening cfg ++ querying cfg
                  ++ assembling tweets outs
                  ++ [Printed MsgStep4; Call (CallOpen "tweet_sentiments.csv");
                      Printed (MsgSaved "tweet_sentiments.csv")]
                  ++ summary ++ [Printed MsgStep5] ++ publish ++ closing;
         disk := <["tweet_sentiments.csv" := csv_of (map fst outs)]> (disk w);
         s3_objects := store |}.

(** What it means for a record to be assembled from a tweet. *)
Definition assembled_from (env : Env) (tweet : Tweet.t) (r : TweetData) : Prop :=
  tweet_id r = Tweet.id tweet
  /\ text r = replace CR SP (replace LF SP (Tweet.text tweet))
  /\ created_at r = Tweet.created_at tweet
  /\ sentiment r = fst (analyze_sentiment env (text r))
  /\ polarity_score r = round3 (textblob_polarity env (text r))
  /\ metric_or_zero tweet "retweet_count" = inr (retweet_count r)
  /\ metric_or_zero tweet "like_count" = inr (like_count r).

(** The events of a run that got past the export. *)
Definition exported_events (cfg : Config) (tweets : list Tweet.t)
    (outs : list (TweetData * (string * Q))) (summary publish : list Event)
    : list Event :=
  opening cfg ++ querying cfg ++ assembling tweets outs
  ++ [Printed MsgStep4; Call (CallOpen "tweet_sentiments.csv");
      Printed (MsgSaved "tweet_sentiments.csv")]
  ++ summary ++ [Printed MsgStep5] ++ publish ++ closing.

(** ** Sample inputs *)

Definition sample_time : DateTime :=
  {| year := 2024; month := 3; day := 7; hour := 9; minute := 5; second := 0;
     microsecond := 0; utc := true |}.

(** A tweet whose text spans three lines and whose metrics are complete. *)
Definition sample_tweet : Tweet.t :=
  {| Tweet.id := 11;
     Tweet.text := "AWS is" +:+ String LF (String CR "great!");
     Tweet.created_at := Some sample_time;
     Tweet.public_metrics :=
       Some (<["retweet_count" := 2%Z]> (<["like_count" := 5%Z]> ∅)) |}.

(** A tweet for which the provider sent no metrics and no timestamp. *)
Definition bare_tweet : Tweet.t :=
  {| Tweet.id := 12;
     Tweet.text := "AWS outage again";
     Tweet.created_at := None;
     Tweet.public_metrics := None |}.

(** A tweet whose metrics object lacks ['retweet_count']. *)
Definition partial_tweet : Tweet.t :=
  {| Tweet.id := 13;
     Tweet.text := "Just using AWS";
     Tweet.created_at := Some sample_time;
     Tweet.public_metrics := Some (<["like_count" := 5%Z]> ∅) |}.

(** A world answering as told: the search result, and the faults of the
    file system and of the upload. *)
Definition sample_env (found : exn + Response) (on_open on_upload : option exn)
    : Env :=
  {| textblob_polarity :=
       fun s => if String.eqb s "AWS outage again" then (-7 # 16)%Q
                else if String.eqb s "Just using AWS" then 0%Q
                else (4 # 5)%Q;
     textblob_signbit := fun s => String.eqb s "AWS outage again";
     tweepy_Client := fun token => inr {| bearer_token := token |};
     search_recent_tweets := fun _ _ _ => found;
     open_fault := fun _ => on_open;
     write_fault := fun _ _ => None;
     torn_file := fun _ rows => rows;
     boto3_client := None;
     upload_fault := fun _ _ _ => on_upload;
     datetime_now := sample_time |}.

Definition two_tweets : exn + Response :=
  inr {| data := Some [sample_tweet; bare_tweet] |}.

Definition configured : Config :=
  {| BEARER_TOKEN := "token";
     AWS_BUCKET_NAME := "reports";
     SEARCH_KEYWORD := "AWS";
     TWEET_COUNT := 10 |}.

(** A record as [process_tweets] builds it. *)
Definition sample_record : TweetData :=
  {| tweet_id := 12;
     text := "AWS outage again";
     created_at := None;
     sentiment := "negative";
     polarity_score := (-438 # 1000)%Q;
     polarity_signbit := true;
     retweet_count := 0;
     like_count := 0 |}.

Definition empty_world : World :=
  {| trace := []; disk := ∅; s3_objects := ∅ |}.

(** ** Vocabulary of the further properties *)

(** The number of records carrying a label. *)
Definition count_label (label : string) (results : list TweetData) : nat :=
  length (List.filter (fun r => String.eqb (sentiment r) label) results).

(** The stored scores added up in the order of the records, from zero. *)
Definition sum_scores (results : list TweetData) : Q :=
  fold_left (fun acc r => (acc + polarity_score r)%Q) results 0%Q.

(** The line of the distribution for a label counted [count] times among
    [n] records. *)
Definition distribution_event (n : nat) (label : string) (count : nat)
    : Event :=
  let percentage :=
    (inject_Z (Z.of_nat count) / inject_Z (Z.of_nat n) * 100)%Q in
  Printed (MsgDistribution label count percentage
             (Z.to_nat (int_of (percentage / 5)))).

(** Everything [generate_summary] prints for a non-empty sequence. *)
Definition summary_events (cfg : Config) (results : list TweetData)
    : list Event :=
  let n := length results in
  let avg := (sum_scores results / inject_Z (Z.of_nat n))%Q in
  [Printed MsgRule; Printed MsgSummaryTitle; Printed MsgRule;
   Printed (MsgTotal n); Printed (MsgKeyword (SEARCH_KEYWORD cfg));
   Printed MsgDistributionHeader;
   distribution_event n "positive" (count_label "positive" results);
   distribution_event n "negative" (count_label "negative" results);
   distribution_event n "neutral" (count_label "neutral" results);
   Printed (MsgAverage avg);
   Printed (MsgOverall
              (if Qgtb avg (1 # 10) then "POSITIVE"
               else if Qltb avg (- (1 # 10)) then "NEGATIVE"
               else "NEUTRAL"));
   Printed MsgRule].

(** The calls that left the process, in order. *)
Fixpoint calls_of (evs : list Event) : list ExtCall :=
  match evs with
  | [] => []
  | Call c :: rest => c :: calls_of rest
  | Printed _ :: rest => calls_of rest
  end.

(** The calls of a complete run, in the only order they can occur. *)
Definition all_calls (env : Env) (cfg : Config) : list ExtCall :=
  [CallTwitterClient (BEARER_TOKEN cfg);
   CallSearch (search_query cfg) (TWEET_COUNT cfg);
   CallOpen "tweet_sentiments.csv";
   CallBoto3Client;
   CallUpload "tweet_sentiments.csv" (AWS_BUCKET_NAME cfg)
     (object_key env "tweet_sentiments.csv")].

Definition publish_succeeded (evs : list Event) : bool :=
  existsb (fun e => match e with Printed (MsgUploaded _ _) => true | _ => false end)
    evs.

Definition search_called (evs : list Event) : bool :=
  existsb (fun e => match e with Call (CallSearch _ _) => true | _ => false end)
    evs.

(** A world whose Twitter client cannot be created, and one whose scorer is
    the given function. *)
Definition offline_env : Env :=
  {| textblob_polarity := fun _ => 0%Q;
     textblob_signbit := fun _ => false;
     tweepy_Client := fun _ => inl (Exception "no network");
     search_recent_tweets := fun _ _ _ => inl (Exception "no network");
     open_fault := fun _ => None;
     write_fault := fun _ _ => None;
     torn_file := fun _ rows => rows;
     boto3_client := None;
     upload_fault := fun _ _ _ => None;
     datetime_now := sample_time |}.

Definition scorer_env (scorer : string -> Q) (on_write : nat -> option exn)
    : Env :=
  {| textblob_polarity := scorer;
     textblob_signbit := fun _ => false;
     tweepy_Client := fun token => inr {| bearer_token := token |};
     search_recent_tweets := fun _ _ _ => two_tweets;
     open_fault := fun _ => None;
     write_fault := fun _ n => on_write n;
     torn_file := fun _ rows => firstn 1 rows;
     boto3_client := None;
     upload_fault := fun _ _ _ => None;
     datetime_now := sample_time |}.

(** * Properties *)

Lemma Qltb_lt (a b : Q) : Qltb a b = true <-> (a < b)%Q.
Proof. unfold Qltb, Qlt. apply Z.ltb_lt. Qed.

Lemma Qltb_ge (a b : Q) : Qltb a b = false <-> (b <= a)%Q.
Proof. unfold Qltb, Qle. apply Z.ltb_ge. Qed.

(** ** The world and the monad *)

Lemma log_log (a b : list Event) (w : World) :
  log b (log a w) = log (a ++ b) w.
Proof. unfold log; simpl. by rewrite <- app_assoc. Qed.

Lemma bind_eq {A B : Type} (m : M A) (k : A -> M B) (w : World) :
  bind m k w = match m w with
               | (inr a, w') => k a w'
               | (inl e, w') => (inl e, w')
               end.
Proof. reflexivity. Qed.

Lemma try_except_eq {A : Type} (m : M A) (h : exn -> M A) (w : World) :
  try_except m h w = match m w with
                     | (inr a, w') => (inr a, w')
                     | (inl e, w') => h e w'
                     end.
Proof. reflexivity. Qed.

Lemma print_eq (m : Msg) (w : World) : print m w = (inr tt, log [Printed m] w).
Proof. reflexivity. Qed.

(** Unfolds the monadic plumbing and computes as far as the world's answers
    allow. *)
Ltac run :=
  repeat (rewrite ?bind_eq, ?try_except_eq, ?print_eq, ?log_log;
          cbn [app negb];
          unfold emit, lift, ret, raise, get_world, set_disk, set_s3;
          cbn beta iota).

(** Closes an equation between a computed world and its explicit form. *)
Ltac same_world :=
  cbv [log]; cbn [trace disk s3_objects app];
  repeat (progress (rewrite <- ?app_assoc; cbn [app])); reflexivity.

(** ** Connecting and fetching *)

Lemma authenticate_twitter_ok env cfg c w :
  tweepy_Client env (BEARER_TOKEN cfg) = inr c ->
  authenticate_twitter env cfg w
  = (inr (Some c),
     log [Call (CallTwitterClient (BEARER_TOKEN cfg)); Printed MsgConnected] w).
Proof.
  intros H. unfold authenticate_twitter, Client_new. run. rewrite H. by run.
Qed.

Lemma authenticate_twitter_failed env cfg e w :
  tweepy_Client env (BEARER_TOKEN cfg) = inl e ->
  authenticate_twitter env cfg w
  = (inr None,
     log [Call (CallTwitterClient (BEARER_TOKEN cfg));
          Printed (MsgConnectError e)] w).
Proof.
  intros H. unfold authenticate_twitter, Client_new. run. rewrite H. by run.
Qed.

Lemma fetch_tweets_failed env c keyword count e w :
  search_recent_tweets env c (keyword +:+ " lang:en -is:retweet") count = inl e ->
  fetch_tweets env c keyword count w
  = (inr [],
     log [Call (CallSearch (keyword +:+ " lang:en -is:retweet") count);
          Printed (MsgFetchError e)] w).
Proof.
  intros H. unfold fetch_tweets, client_search. run. rewrite H. by run.
Qed.

Lemma fetch_tweets_empty env c keyword count resp w :
  search_recent_tweets env c (keyword +:+ " lang:en -is:retweet") count
  = inr resp ->
  truthy_data (data resp) = false ->
  fetch_tweets env c keyword count w
  = (inr [],
     log [Call (CallSearch (keyword +:+ " lang:en -is:retweet") count);
          Printed MsgNoTweets] w).
Proof.
  intros H Hd. unfold fetch_tweets, client_search. run. rewrite H. run.
  rewrite Hd. by run.
Qed.

Lemma fetch_tweets_some env c keyword count resp tweets w :
  search_recent_tweets env c (keyword +:+ " lang:en -is:retweet") count
  = inr resp ->
  data resp = Some tweets ->
  tweets <> [] ->
  fetch_tweets env c keyword count w
  = (inr tweets,
     log [Call (CallSearch (keyword +:+ " lang:en -is:retweet") count);
          Printed (MsgFetched (length tweets))] w).
Proof.
  intros H Hd Hne. unfold fetch_tweets, client_search. run. rewrite H. run.
  rewrite Hd. destruct tweets as [|t ts]; [done|].
  cbn [truthy_data truthy_list default from_option]. by run.
Qed.

(** ** Assembling the records *)

Lemma log_nil (w : World) : log [] w = w.
Proof. destruct w. unfold log; simpl. by rewrite app_nil_r. Qed.

Lemma metric_or_zero_falsy tweet key :
  truthy_metrics (Tweet.public_metrics tweet) = false ->
  metric_or_zero tweet key = inr 0%Z.
Proof. intros H. unfold metric_or_zero. by rewrite H. Qed.

Lemma metric_or_zero_truthy tweet d key :
  Tweet.public_metrics tweet = Some d ->
  size d <> 0 ->
  metric_or_zero tweet key = getitem d key.
Proof.
  intros H Hd. unfold metric_or_zero. rewrite H. simpl.
  by destruct (Nat.eqb_spec (size d) 0).
Qed.

Lemma metric_or_zero_complete tweet key :
  metrics_complete tweet = true ->
  key = "retweet_count" \/ key = "like_count" ->
  exists z, metric_or_zero tweet key = inr z.
Proof.
  unfold metrics_complete, metric_or_zero. intros H Hkey.
  destruct (Tweet.public_metrics tweet) as [d|]; simpl; [|by eexists].
  destruct (Nat.eqb (size d) 0); simpl in *; [by eexists|].
  apply andb_true_iff in H as [H1 H2].
  apply bool_decide_eq_true in H1 as [a Ha], H2 as [b Hb].
  unfold getitem. destruct Hkey as [-> | ->]; [rewrite Ha | rewrite Hb]; by eexists.
Qed.

Lemma tweet_row_complete env tweet :
  metrics_complete tweet = true -> exists o, tweet_row env tweet = inr o.
Proof.
  intros H. unfold tweet_row.
  destruct (metric_or_zero_complete tweet "retweet_count" H) as [a ->]; [by left|].
  destruct (metric_or_zero_complete tweet "like_count" H) as [b ->]; [by right|].
  simpl. by eexists.
Qed.

Lemma tweet_row_incomplete env tweet :
  metrics_complete tweet = false ->
  tweet_row env tweet = inl (KeyError "retweet_count")
  \/ tweet_row env tweet = inl (KeyError "like_count").
Proof.
  unfold metrics_complete, tweet_row, metric_or_zero. intros H.
  destruct (Tweet.public_metrics tweet) as [d|]; [|done]. simpl.
  destruct (Nat.eqb (size d) 0); [done|]. simpl in *.
  unfold getitem.
  destruct (d !! "retweet_count") as [a|] eqn:Ha; [|by left].
  destruct (d !! "like_count") as [b|] eqn:Hb; [|by right].
  rewrite !bool_decide_eq_true_2 in H by eauto. done.
Qed.

Lemma tweet_row_inr_complete env tweet o :
  tweet_row env tweet = inr o -> metrics_complete tweet = true.
Proof.
  intros H. destruct (metrics_complete tweet) eqn:Hc; [done|].
  destruct (tweet_row_incomplete env tweet Hc) as [E|E]; congruence.
Qed.

Lemma tweets_complete_rows env tweets :
  Forall (fun t => metrics_complete t = true) tweets ->
  exists outs, Forall2 (fun t o => tweet_row env t = inr o) tweets outs.
Proof.
  induction 1 as [|t ts Ht _ [outs IH]]; [by exists []|].
  destruct (tweet_row_complete env t Ht) as [o Ho].
  exists (o :: outs). by constructor.
Qed.

(** Either every tweet yields a row, or there is a first one that raises. *)
Lemma tweets_split env tweets :
  (exists outs, Forall2 (fun t o => tweet_row env t = inr o) tweets outs)
  \/ (exists pre t post outs key,
        tweets = pre ++ t :: post
        /\ Forall2 (fun t o => tweet_row env t = inr o) pre outs
        /\ tweet_row env t = inl (KeyError key)).
Proof.
  induction tweets as [|t ts IH]; [left; by exists []|].
  destruct (metrics_complete t) eqn:Hc.
  - destruct (tweet_row_complete env t Hc) as [o Ho].
    destruct IH as [[outs IH] | (pre & t' & post & outs & key & -> & Hpre & Ht')].
    + left. exists (o :: outs). by constructor.
    + right. exists (t :: pre), t', post, (o :: outs), key.
      repeat split; [by constructor | done].
  - right. exists [], t, ts, [].
    destruct (tweet_row_incomplete env t Hc) as [E|E]; eexists;
      (repeat split; [constructor | exact E]).
Qed.

Lemma process_loop_ok env tweets outs :
  Forall2 (fun t o => tweet_row env t = inr o) tweets outs ->
  forall i acc w,
    process_loop env i tweets acc w
    = (inr (acc ++ map fst outs), log (tweet_msgs i outs) w).
Proof.
  induction 1 as [|t o ts os Ho _ IH]; intros i acc w; simpl.
  - by rewrite app_nil_r, log_nil.
  - rewrite bind_eq, Ho. destruct o as [r [label p]]. simpl.
    rewrite bind_eq, print_eq, IH, log_log. simpl.
    by rewrite <- app_assoc.
Qed.

Lemma process_loop_raises env pre outs t post e :
  Forall2 (fun t o => tweet_row env t = inr o) pre outs ->
  tweet_row env t = inl e ->
  forall i acc w,
    process_loop env i (pre ++ t :: post) acc w
    = (inl e, log (tweet_msgs i outs) w).
Proof.
  induction 1 as [|t' o ts os Ho _ IH]; intros He i acc w; simpl.
  - by rewrite bind_eq, He, log_nil.
  - rewrite bind_eq, Ho. destruct o as [r [label p]]. simpl.
    rewrite bind_eq, print_eq, IH, log_log by done. done.
Qed.

Lemma Forall2_rows_length env tweets outs :
  Forall2 (fun t o => tweet_row env t = inr o) tweets outs ->
  length outs = length tweets.
Proof. intros H. symmetry. by eapply Forall2_length. Qed.

(** ** Writing the file *)

Lemma writer_writerow_eq env filename row w :
  writer_writerow env filename row w
  = match write_fault env filename
            (length (default [] (disk w !! filename))) with
    | Some e =>
        (inl e,
         {| trace := trace w;
            disk := <[filename := torn_file env filename
                                    (default [] (disk w !! filename))]>
                      (disk w);
            s3_objects := s3_objects w |})
    | None =>
        (inr tt,
         {| trace := trace w;
            disk := <[filename := default [] (disk w !! filename) ++ [row]]>
                      (disk w);
            s3_objects := s3_objects w |})
    end.
Proof.
  unfold writer_writerow. rewrite bind_eq. unfold get_world.
  destruct (write_fault _ _ _); [|reflexivity].
  rewrite bind_eq. reflexivity.
Qed.

Lemma file_close_eq env filename w :
  file_close env filename w
  = match write_fault env filename
            (length (default [] (disk w !! filename))) with
    | Some e =>
        (inl e,
         {| trace := trace w;
            disk := <[filename := torn_file env filename
                                    (default [] (disk w !! filename))]>
                      (disk w);
            s3_objects := s3_objects w |})
    | None => (inr tt, w)
    end.
Proof.
  unfold file_close. rewrite bind_eq. unfold get_world.
  destruct (write_fault _ _ _); [|reflexivity].
  rewrite bind_eq. reflexivity.
Qed.

(** Writing a sequence of rows: all of them are written, or some write
    raises; the trace and the object store stay as they were. *)
Lemma write_rows_outcome env filename {A : Type} (g : A -> list string)
    (rs : list A) :
  forall cur w,
    disk w !! filename = Some cur ->
    ((forall j, j < length rs ->
                write_fault env filename (length cur + j) = None)
     /\ for_each rs (fun r => writer_writerow env filename (g r)) w
        = (inr tt,
           {| trace := trace w;
              disk := <[filename := cur ++ map g rs]> (disk w);
              s3_objects := s3_objects w |}))
    \/ exists e k,
         k < length rs
         /\ write_fault env filename (length cur + k) = Some e
         /\ (forall j, j < k ->
                       write_fault env filename (length cur + j) = None)
         /\ for_each rs (fun r => writer_writerow env filename (g r)) w
            = (inl e,
               {| trace := trace w;
                  disk := <[filename := torn_file env filename
                                          (cur ++ map g (take k rs))]>
                            (disk w);
                  s3_objects := s3_objects w |}).
Proof.
  induction rs as [|r rs IH]; intros cur w Hcur.
  - left. split; [intros j Hj; inversion Hj|].
    cbn [for_each map]. unfold ret.
    rewrite app_nil_r, insert_id by done. by destruct w.
  - cbn [for_each]. rewrite bind_eq, writer_writerow_eq, Hcur.
    cbn [default from_option id].
    destruct (write_fault env filename (length cur)) as [e|] eqn:Hf.
    + right. exists e, 0. cbn [take map length].
      rewrite Nat.add_0_r, app_nil_r.
      repeat split; [lia | done | intros j Hj; inversion Hj].
    + destruct (IH (cur ++ [g r])
                  {| trace := trace w;
                     disk := <[filename := cur ++ [g r]]> (disk w);
                     s3_objects := s3_objects w |})
        as [[Hall E] | (e & k & Hk & Hke & Hbefore & E)].
      { apply lookup_insert_eq. }
      * left. cbn [trace disk s3_objects] in E. rewrite E. split.
        -- intros [|j] Hj; [by rewrite Nat.add_0_r|].
           specialize (Hall j ltac:(cbn [length] in Hj; lia)).
           rewrite length_app in Hall. cbn [length] in Hall.
           by replace (length cur + S j) with (length cur + 1 + j) by lia.
        -- cbn [map]. by rewrite insert_insert_eq, <- app_assoc.
      * right. exists e, (S k). cbn [trace disk s3_objects] in E. rewrite E.
        rewrite length_app in Hke, Hbefore. cbn [length] in Hke, Hbefore.
        repeat split.
        -- cbn [length]. lia.
        -- by replace (length cur + S k) with (length cur + 1 + k) by lia.
        -- intros [|j] Hj; [by rewrite Nat.add_0_r|].
           specialize (Hbefore j ltac:(lia)).
           by replace (length cur + S j) with (length cur + 1 + j) by lia.
        -- cbn [take map]. by rewrite insert_insert_eq, <- app_assoc.
Qed.

(** Every way [save_to_csv] can go. Write 0 is the header, write [i + 1]
    the row of record [i], and the last write the flush on closing. *)
Lemma save_to_csv_run env results filename w :
  (open_fault env filename = None
   /\ (forall j, j <= S (length results) ->
                 write_fault env filename j = None)
   /\ save_to_csv env results filename w
      = (inr true,
         {| trace := trace w ++ [Call (CallOpen filename);
                                 Printed (MsgSaved filename)];
            disk := <[filename := csv_of results]> (disk w);
            s3_objects := s3_objects w |}))
  \/ (exists e,
        open_fault env filename = Some e
        /\ save_to_csv env results filename w
           = (inr false,
              log [Call (CallOpen filename); Printed (MsgSaveError e)] w))
  \/ (exists e k,
        open_fault env filename = None
        /\ k <= S (length results)
        /\ write_fault env filename k = Some e
        /\ (forall j, j < k -> write_fault env filename j = None)
        /\ save_to_csv env results filename w
           = (inr false,
              {| trace := trace w ++ [Call (CallOpen filename);
                                      Printed (MsgSaveError e)];
                 disk := <[filename := torn_file env filename
                                         (take k (csv_of results))]> (disk w);
                 s3_objects := s3_objects w |})).
Proof.
  unfold save_to_csv, open_w, writeheader, writerows.
  rewrite try_except_eq, bind_eq, bind_eq. unfold emit.
  destruct (open_fault env filename) as [e|] eqn:Ho.
  { right. left. exists e. split; [done|].
    unfold raise. rewrite bind_eq, print_eq. unfold ret. by rewrite log_log. }
  rewrite bind_eq. unfold get_world, set_disk. cbn [log trace disk s3_objects].
  rewrite bind_eq, writer_writerow_eq. cbn [trace disk s3_objects].
  rewrite lookup_insert_eq. cbn [default from_option id length app].
  destruct (write_fault env filename 0) as [e|] eqn:Hh.
  { right. right. exists e, 0. cbn [take].
    repeat split; [lia | done | intros j Hj; inversion Hj |].
    rewrite insert_insert_eq, bind_eq, print_eq. unfold ret. same_world. }
  rewrite insert_insert_eq, bind_eq.
  destruct (write_rows_outcome env filename (dict_to_list headers) results
              [headers]
              {| trace := trace w ++ [Call (CallOpen filename)];
                 disk := <[filename := [headers]]> (disk w);
                 s3_objects := s3_objects w |})
    as [[Hall E] | (e & k & Hk & Hke & Hbefore & E)].
  { apply lookup_insert_eq. }
  - cbn [trace disk s3_objects length] in E, Hall. rewrite E.
    rewrite insert_insert_eq, bind_eq, file_close_eq.
    cbn [trace disk s3_objects]. rewrite lookup_insert_eq.
    cbn [default from_option id app length]. rewrite length_map.
    destruct (write_fault env filename (S (length results))) as [e|] eqn:Hc.
    + right. right. exists e, (S (length results)).
      repeat split; [lia | done | |].
      * intros [|j] Hj; [done|]. apply (Hall j). lia.
      * rewrite insert_insert_eq, bind_eq, print_eq. unfold ret, csv_of.
        rewrite firstn_all2 by (cbn [length]; rewrite length_map; lia).
        same_world.
    + left. split; [done|]. split.
      * intros j Hj. destruct j as [|j]; [done|].
        destruct (decide (j = length results)) as [->|Hne]; [done|].
        apply (Hall j). lia.
      * rewrite bind_eq, print_eq. unfold ret. same_world.
  - right. right. exists e, (S k).
    cbn [trace disk s3_objects length] in E, Hke, Hbefore. rewrite E.
    repeat split; [lia | done | |].
    + intros [|j] Hj; [done|]. apply (Hbefore j). lia.
    + rewrite insert_insert_eq, bind_eq, print_eq. unfold ret, csv_of.
      cbn [take]. rewrite firstn_map. same_world.
Qed.

Lemma save_to_csv_cases env results filename w :
  save_to_csv env results filename w
  = (inr true,
     {| trace := trace w ++ [Call (CallOpen filename); Printed (MsgSaved filename)];
        disk := <[filename := csv_of results]> (disk w);
        s3_objects := s3_objects w |})
  \/ exists e d,
       (open_fault env filename = Some e
        \/ exists n, write_fault env filename n = Some e)
       /\ save_to_csv env results filename w
          = (inr false,
             {| trace := trace w ++ [Call (CallOpen filename);
                                     Printed (MsgSaveError e)];
                disk := d;
                s3_objects := s3_objects w |}).
Proof.
  destruct (save_to_csv_run env results filename w)
    as [(_ & _ & E) | [(e & Ho & E) | (e & k & _ & _ & Hk & _ & E)]].
  - by left.
  - right. exists e, (disk w). split; [by left|]. rewrite E. same_world.
  - right. eexists e, _. split; [right; by exists k | exact E].
Qed.

Lemma save_to_csv_ok env results filename w :
  open_fault env filename = None ->
  (forall n, write_fault env filename n = None) ->
  save_to_csv env results filename w
  = (inr true,
     {| trace := trace w ++ [Call (CallOpen filename); Printed (MsgSaved filename)];
        disk := <[filename := csv_of results]> (disk w);
        s3_objects := s3_objects w |}).
Proof.
  intros Ho Hw.
  destruct (save_to_csv_cases env results filename w)
    as [E | (e & d & [Hf | [n Hf]] & _)]; [done | congruence |].
  rewrite Hw in Hf. discriminate.
Qed.

(** ** The summary *)

Lemma truediv_nat_succ (a : Q) (n : nat) :
  truediv a (inject_Z (Z.of_nat (S n))) = inr (a / inject_Z (Z.of_nat (S n)))%Q.
Proof. reflexivity. Qed.

Lemma truediv_five (a : Q) : truediv a 5 = inr (a / 5)%Q.
Proof. reflexivity. Qed.

Lemma dict_incr_error key d e : dict_incr key d = inl e -> e = KeyError key.
Proof.
  induction d as [|[k v] d IH]; simpl; [congruence|].
  destruct (String.eqb k key); [discriminate|].
  destruct (dict_incr key d); [|discriminate]. intros [= <-]. by apply IH.
Qed.

Lemma dict_incr_known key d :
  In key (map fst d) ->
  exists d', dict_incr key d = inr d' /\ map fst d' = map fst d.
Proof.
  induction d as [|[k v] d IH]; simpl; [done|]. intros Hin.
  destruct (String.eqb_spec k key) as [->|Hne]; [by eexists|].
  destruct IH as (d' & -> & Hk); [by destruct Hin|].
  eexists. split; [done|]. simpl. by rewrite Hk.
Qed.

Lemma count_loop_error results :
  forall d total e,
    count_loop results d total = inl e -> exists key, e = KeyError key.
Proof.
  induction results as [|r rs IH]; intros d total e; simpl; [discriminate|].
  destruct (dict_incr (sentiment r) d) as [e'|d'] eqn:Hd.
  - intros [= <-]. eexists. by eapply dict_incr_error.
  - apply IH.
Qed.

Lemma count_loop_known results :
  forall d total,
    Forall (fun r => In (sentiment r) (map fst d)) results ->
    exists counts sum, count_loop results d total = inr (counts, sum).
Proof.
  induction results as [|r rs IH]; intros d total Hall; simpl; [by eexists _, _|].
  inversion Hall as [|? ? Hr Hrs]; subst.
  destruct (dict_incr_known _ _ Hr) as (d' & -> & Hk).
  apply IH. by rewrite Hk.
Qed.

Lemma distribution_loop n counts :
  exists dist,
    Forall (fun e => exists l c p b, e = Printed (MsgDistribution l c p b)) dist
    /\ forall w,
         for_each counts (distribution_line (S n)) w = (inr tt, log dist w).
Proof.
  induction counts as [|[label count] counts (dist & Hdist & IH)].
  - exists []. split; [constructor|]. intros w. simpl. unfold ret.
    by rewrite log_nil.
  - eexists (_ :: dist). split; [constructor; [by eexists _, _, _, _|done]|].
    intros w. cbn [for_each]. rewrite bind_eq. unfold distribution_line at 1.
    rewrite bind_eq, truediv_nat_succ. unfold lift at 1, ret at 1.
    rewrite bind_eq, truediv_five. unfold lift at 1, ret at 1.
    rewrite print_eq, IH, log_log. reflexivity.
Qed.

Lemma generate_summary_empty cfg w :
  generate_summary cfg [] w = (inr tt, log [Printed MsgNoResults] w).
Proof. reflexivity. Qed.

Lemma generate_summary_counted cfg results counts sum :
  results <> [] ->
  count_loop results [("positive", 0); ("negative", 0); ("neutral", 0)] 0
  = inr (counts, sum) ->
  exists evs,
    summary_block cfg (length results) evs
    /\ forall w, generate_summary cfg results w = (inr tt, log evs w).
Proof.
  intros Hne Hc. destruct results as [|r rs]; [done|].
  destruct (distribution_loop (length rs) counts) as (dist & Hdist & Hloop).
  eexists. split.
  - exists dist. eexists _, _. split; [reflexivity | exact Hdist].
  - intros w. unfold generate_summary. cbn [truthy_list negb].
    rewrite bind_eq, Hc. unfold lift at 1, ret at 1.
    cbn [length]. run. rewrite Hloop. run.
    rewrite truediv_nat_succ. run. rewrite <- !app_assoc. reflexivity.
Qed.

Lemma generate_summary_raised cfg results e w :
  results <> [] ->
  count_loop results [("positive", 0); ("negative", 0); ("neutral", 0)] 0
  = inl e ->
  generate_summary cfg results w = (inl e, w).
Proof.
  intros Hne Hc. destruct results as [|r rs]; [done|].
  unfold generate_summary. cbn [truthy_list negb].
  by rewrite bind_eq, Hc.
Qed.

Lemma tweet_row_label env tweet r label p :
  tweet_row env tweet = inr (r, (label, p)) ->
  sentiment r = label
  /\ In label ["positive"; "negative"; "neutral"].
Proof.
  unfold tweet_row, analyze_sentiment. intros H.
  destruct (metric_or_zero tweet "retweet_count"); [discriminate|].
  destruct (metric_or_zero tweet "like_count"); [discriminate|].
  injection H as <- <- <-. split; [done|].
  destruct (Qgtb _ 0); [by left|].
  destruct (Qltb _ 0); [right; by left | right; right; by left].
Qed.

Lemma rows_labels env tweets outs :
  Forall2 (fun t o => tweet_row env t = inr o) tweets outs ->
  Forall (fun r => In (sentiment r) ["positive"; "negative"; "neutral"])
    (map fst outs).
Proof.
  induction 1 as [|t [r [label p]] ts os Ho _ IH]; simpl; constructor; [|done].
  destruct (tweet_row_label _ _ _ _ _ Ho) as [-> Hin]. exact Hin.
Qed.

Lemma generate_summary_rows env cfg tweets outs :
  tweets <> [] ->
  Forall2 (fun t o => tweet_row env t = inr o) tweets outs ->
  exists evs,
    summary_block cfg (length tweets) evs
    /\ forall w, generate_summary cfg (map fst outs) w = (inr tt, log evs w).
Proof.
  intros Hne Hrows.
  assert (Hlen : length (map fst outs) = length tweets).
  { rewrite length_map. by eapply Forall2_rows_length. }
  destruct (count_loop_known (map fst outs)
              [("positive", 0); ("negative", 0); ("neutral", 0)] 0%Q)
    as (counts & sum & Hc).
  { by eapply rows_labels. }
  rewrite <- Hlen. eapply generate_summary_counted; [|exact Hc].
  intros E. rewrite E in Hlen. destruct tweets; [done | discriminate].
Qed.

(** ** Publishing *)

Lemma upload_to_s3_cases env filename bucket w :
  let key := object_key env filename in
  (exists content,
     disk w !! filename = Some content
     /\ boto3_client env = None
     /\ upload_fault env filename bucket key = None
     /\ upload_to_s3 env filename bucket w
        = (inr true,
           {| trace := trace w ++ [Call CallBoto3Client;
                                   Call (CallUpload filename bucket key);
                                   Printed (MsgUploaded bucket key)];
              disk := disk w;
              s3_objects := <[(bucket, key) := content]> (s3_objects w) |}))
  \/ (exists calls e,
        Forall (fun c => exists x, c = Call x) calls
        /\ upload_to_s3 env filename bucket w
           = (inr false,
              log (Call CallBoto3Client :: calls
                   ++ [Printed (MsgUploadError e); Printed MsgCredentialsHint]) w)).
Proof.
  intros key. unfold upload_to_s3, boto3_client_s3, s3_upload_file.
  change ("sentiment_analysis/" +:+ strftime_compact (datetime_now env)
          +:+ "_" +:+ filename) with key. clearbody key.
  unfold bind, try_except, print, emit, ret, raise, get_world, set_s3.
  destruct (boto3_client env) as [e|].
  { right. exists [], e. split; [constructor|]. same_world. }
  cbn [log trace disk s3_objects].
  destruct (disk w !! filename) as [content|] eqn:Hfile.
  - destruct (upload_fault env filename bucket key) as [e|].
    + right. exists [Call (CallUpload filename bucket key)], e.
      split; [repeat constructor; by eexists|].
      same_world.
    + left. exists content. repeat split; try done.
      same_world.
  - right. exists [Call (CallUpload filename bucket key)],
      (FileNotFoundError filename).
    split; [repeat constructor; by eexists|].
    same_world.
Qed.

Lemma upload_to_s3_returns env filename bucket w :
  exists ok w', upload_to_s3 env filename bucket w = (inr ok, w').
Proof.
  destruct (upload_to_s3_cases env filename bucket w)
    as [(content & _ & _ & _ & E) | (calls & e & _ & E)]; rewrite E;
    by eexists _, _.
Qed.

Lemma publish_stage env cfg content w :
  disk w !! "tweet_sentiments.csv" = Some content ->
  exists evs store,
    publish_run env cfg content (s3_objects w) evs store
    /\ (if negb (String.eqb (AWS_BUCKET_NAME cfg) "YOUR_BUCKET_NAME")
        then upload_to_s3 env "tweet_sentiments.csv" (AWS_BUCKET_NAME cfg)
             >> ret tt
        else print MsgSkipped) w
       = (inr tt, {| trace := trace w ++ evs; disk := disk w;
                     s3_objects := store |}).
Proof.
  intros Hfile.
  destruct (String.eqb_spec (AWS_BUCKET_NAME cfg) "YOUR_BUCKET_NAME")
    as [Heq|Hne]; cbn [negb].
  - eexists _, _. split; [by apply Publish_skipped|]. reflexivity.
  - rewrite bind_eq.
    destruct (upload_to_s3_cases env "tweet_sentiments.csv"
                (AWS_BUCKET_NAME cfg) w)
      as [(content' & Hc & Hb & Hu & E) | (calls & e & Hcalls & E)]; rewrite E.
    + rewrite Hfile in Hc. injection Hc as <-.
      eexists _, _. split; [by eapply Publish_done|]. reflexivity.
    + eexists _, _. split; [by apply (Publish_failed _ _ _ _ calls e)|].
      reflexivity.
Qed.

(** ** Every run of [main] *)

Lemma main_run_world env cfg w r w1 w2 :
  main_run env cfg w r w1 -> w1 = w2 -> main_run env cfg w r w2.
Proof. by intros H <-. Qed.

Ltac same_run :=
  cbv [opening querying assembling closing search_query];
  cbv [log]; cbn [trace disk s3_objects app];
  repeat (progress (rewrite <- ?app_assoc; cbn [app])); reflexivity.

Lemma main_run_complete env cfg w :
  main_run env cfg w (fst (main env cfg w)) (snd (main env cfg w)).
Proof.
  unfold main. run.
  destruct (tweepy_Client env (BEARER_TOKEN cfg)) as [e|c] eqn:Hc.
  { rewrite (authenticate_twitter_failed _ _ _ _ Hc). run. cbn [fst snd].
    eapply main_run_world; [by apply Run_auth_failed|]. same_run. }
  rewrite (authenticate_twitter_ok _ _ _ _ Hc). run.
  destruct (search_recent_tweets env c (search_query cfg) (TWEET_COUNT cfg))
    as [e|resp] eqn:Hs.
  { rewrite (fetch_tweets_failed _ _ _ _ _ _ Hs). run. cbn [fst snd].
    eapply main_run_world; [by eapply Run_fetch_failed|]. same_run. }
  destruct (truthy_data (data resp)) eqn:Hd.
  2:{ rewrite (fetch_tweets_empty _ _ _ _ _ _ Hs Hd). run. cbn [fst snd].
      eapply main_run_world; [by eapply Run_fetch_empty|]. same_run. }
  destruct (data resp) as [tweets|] eqn:Hdata; [|done].
  assert (Hne : tweets <> []) by (by destruct tweets).
  rewrite (fetch_tweets_some _ _ _ _ _ _ _ Hs Hdata Hne). run.
  replace (negb (truthy_list tweets)) with false by (by destruct tweets).
  run. unfold process_tweets.
  destruct (tweets_split env tweets)
    as [[outs Hrows] | (pre & t & post & outs & key & -> & Hpre & Ht)].
  2:{ rewrite (process_loop_raises _ _ _ _ _ _ Hpre Ht). run. cbn [fst snd].
      eapply main_run_world;
        [by eapply (Run_assembly_raised _ _ _ _ _ _ key outs)|]. same_run. }
  rewrite (process_loop_ok _ _ _ Hrows). run.
  match goal with
  | |- context [save_to_csv env ?rs ?f ?w1] =>
      destruct (save_to_csv_cases env rs f w1) as [E | (e & d & _ & E)];
      rewrite E; clear E
  end.
  2:{ run. cbn [fst snd].
      eapply main_run_world;
        [by eapply (Run_export_failed _ _ _ _ _ _ outs e d)|]. same_run. }
  run.
  destruct (generate_summary_rows env cfg tweets outs Hne Hrows)
    as (summary & Hblock & Hsum).
  rewrite Hsum. run.
  match goal with
  | |- context [(if negb _ then _ else _) ?w1] =>
      destruct (publish_stage env cfg (csv_of (map fst outs)) w1)
        as (publish & store & Hpub & Epub)
  end.
  { cbv [log]. cbn [trace disk s3_objects]. apply lookup_insert_eq. }
  unfold ret in Epub. rewrite Epub. run. cbn [fst snd].
  eapply main_run_world;
    [by eapply (Run_exported _ _ _ _ _ _ outs summary publish store)|].
  same_run.
Qed.

Lemma main_runs env cfg w :
  exists r w', main env cfg w = (r, w') /\ main_run env cfg w r w'.
Proof.
  exists (fst (main env cfg w)), (snd (main env cfg w)).
  split; [by destruct (main env cfg w) | apply main_run_complete].
Qed.

(** ** Reading the events of a run *)

Lemma existsb_tweet_msgs (f : Event -> bool) :
  (forall i label p, f (Printed (MsgTweet i label p)) = false) ->
  forall i outs, existsb f (tweet_msgs i outs) = false.
Proof.
  intros Hf i outs. revert i.
  induction outs as [|[r [label p]] outs IH]; intros i; simpl; [done|].
  by rewrite Hf, IH.
Qed.

Lemma existsb_distribution (f : Event -> bool) dist :
  (forall l c p b, f (Printed (MsgDistribution l c p b)) = false) ->
  Forall (fun e => exists l c p b, e = Printed (MsgDistribution l c p b)) dist ->
  existsb f dist = false.
Proof.
  intros Hf. induction 1 as [|e dist (l & c & p & b & ->) _ IH]; simpl; [done|].
  by rewrite Hf, IH.
Qed.

Lemma existsb_calls (f : Event -> bool) calls :
  (forall m, f (Call m) = false) ->
  Forall (fun c => exists x, c = Call x) calls ->
  existsb f calls = false.
Proof.
  intros Hf. induction 1 as [|e calls (x & ->) _ IH]; simpl; [done|].
  by rewrite Hf, IH.
Qed.

(** Evaluates the readings of an explicit trace. *)
Ltac read_sublists :=
  repeat match goal with
         | Hd : Forall _ ?l |- context [existsb ?f ?l] =>
             first
               [ rewrite (existsb_distribution f l) by (done || exact Hd)
               | rewrite (existsb_calls f l) by (done || exact Hd) ]
         | Hd : Forall _ ?l, H : context [existsb ?f ?l] |- _ =>
             first
               [ rewrite (existsb_distribution f l) in H by (done || exact Hd)
               | rewrite (existsb_calls f l) in H by (done || exact Hd) ]
         end.

Ltac read_events :=
  cbv [assembly_reached export_attempted export_succeeded export_failed
       summary_printed publish_attempted publish_failed publish_skipped
       run_completed opening querying assembling closing] in *;
  repeat (rewrite ?existsb_app in *; cbn [existsb app orb] in *;
          rewrite ?existsb_tweet_msgs in * by done;
          read_sublists;
          rewrite ?orb_false_r, ?orb_true_r in *).

(** ** Text without line breaks *)

Lemma chars_append (a b : string) : chars (a +:+ b) = chars a ++ chars b.
Proof. induction a as [|c a IH]; simpl; [done|]. by rewrite IH. Qed.

Lemma no_linebreak_append (a b : string) :
  no_linebreak a -> no_linebreak b -> no_linebreak (a +:+ b).
Proof.
  unfold no_linebreak. rewrite chars_append. intros. by apply Forall_app.
Qed.

Lemma no_linebreak_cons (c : ascii) (s : string) :
  ~ is_linebreak c -> no_linebreak s -> no_linebreak (String c s).
Proof. intros. by constructor. Qed.

Lemma no_linebreak_empty : no_linebreak "".
Proof. constructor. Qed.

Lemma digit_no_linebreak (x : N) : ~ is_linebreak (pretty_N_char x).
Proof.
  unfold pretty_N_char, is_linebreak, LF, CR.
  repeat case_match; intros [?|?]; discriminate.
Qed.

Lemma pretty_N_go_no_linebreak (x : N) :
  forall s, no_linebreak s -> no_linebreak (pretty_N_go x s).
Proof.
  induction (N.lt_wf_0 x) as [x _ IH]. intros s Hs.
  destruct (decide (x = 0%N)) as [->|Hx]; [by rewrite pretty_N_go_0|].
  rewrite pretty_N_go_step by lia. apply IH.
  - apply N.div_lt; lia.
  - apply no_linebreak_cons; [apply digit_no_linebreak | done].
Qed.

Lemma pretty_N_no_linebreak (x : N) : no_linebreak (pretty x).
Proof.
  unfold pretty, pretty_N. case_decide.
  - apply no_linebreak_cons; [|constructor]. intros [?|?]; discriminate.
  - apply pretty_N_go_no_linebreak. constructor.
Qed.

Lemma str_nat_no_linebreak (n : nat) : no_linebreak (str_nat n).
Proof. apply pretty_N_no_linebreak. Qed.

Lemma str_int_no_linebreak (z : Z) : no_linebreak (str_int z).
Proof.
  unfold str_int, pretty, pretty_Z. destruct z as [|q|q].
  - apply no_linebreak_cons; [|constructor]. intros [?|?]; discriminate.
  - apply pretty_N_no_linebreak.
  - apply no_linebreak_append; [|apply pretty_N_no_linebreak].
    apply no_linebreak_cons; [|constructor]. intros [?|?]; discriminate.
Qed.

Lemma zfill_no_linebreak (width : nat) (s : string) :
  no_linebreak s -> no_linebreak (zfill width s).
Proof.
  intros Hs. unfold zfill. apply no_linebreak_append; [|done].
  induction (width - String.length s) as [|n IH]; simpl; [constructor|].
  apply no_linebreak_cons; [|done]. intros [?|?]; discriminate.
Qed.

Lemma literal_no_linebreak (s : string) :
  forallb (fun c => negb (Ascii.eqb c LF || Ascii.eqb c CR)) (chars s) = true ->
  no_linebreak s.
Proof.
  unfold no_linebreak. induction (chars s) as [|c l IH]; simpl; [constructor|].
  intros [Hc Hl]%andb_true_iff. constructor; [|by apply IH].
  apply negb_true_iff, orb_false_iff in Hc as [H1 H2].
  intros [->| ->]; [by rewrite Ascii.eqb_refl in H1 | by rewrite Ascii.eqb_refl in H2].
Qed.

Ltac plain_text :=
  repeat first
    [ apply zfill_no_linebreak
    | apply no_linebreak_append
    | apply str_nat_no_linebreak
    | apply pretty_N_no_linebreak
    | apply literal_no_linebreak; reflexivity
    | case_match ].

Lemma str_float_no_linebreak (signbit : bool) (q : Q) :
  no_linebreak (str_float signbit q).
Proof. unfold str_float, frac_text. plain_text. Qed.

Lemma str_datetime_no_linebreak (d : DateTime) : no_linebreak (str_datetime d).
Proof. unfold str_datetime. plain_text. Qed.

Lemma replace_chars (old new : ascii) (s : string) :
  chars (replace old new s)
  = map (fun c => if Ascii.eqb c old then new else c) (chars s).
Proof. induction s as [|c s IH]; simpl; [done|]. by rewrite IH. Qed.

Lemma clean_text_chars (s : string) :
  chars (replace CR SP (replace LF SP s)) = map despace (chars s).
Proof.
  rewrite !replace_chars, map_map. apply map_ext. intros c. unfold despace.
  destruct (Ascii.eqb_spec c LF) as [->|Hlf]; [done|]. simpl.
  by destruct (Ascii.eqb c CR).
Qed.

Lemma despace_no_linebreak (c : ascii) : ~ is_linebreak (despace c).
Proof.
  unfold despace, is_linebreak.
  destruct (Ascii.eqb_spec c LF) as [->|Hlf]; simpl;
    [intros [?|?]; discriminate|].
  destruct (Ascii.eqb_spec c CR) as [->|Hcr]; [intros [?|?]; discriminate|].
  tauto.
Qed.

Lemma clean_text_no_linebreak (s : string) :
  no_linebreak (replace CR SP (replace LF SP s)).
Proof.
  unfold no_linebreak. rewrite clean_text_chars.
  apply Forall_map, Forall_forall. intros c _. apply despace_no_linebreak.
Qed.

Lemma label_no_linebreak env (s : string) :
  no_linebreak (fst (analyze_sentiment env s)).
Proof.
  unfold analyze_sentiment. simpl.
  repeat case_match; by apply literal_no_linebreak.
Qed.

Lemma tweet_row_assembled env tweet r sp :
  tweet_row env tweet = inr (r, sp) ->
  assembled_from env tweet r /\ sp = analyze_sentiment env (text r).
Proof.
  unfold tweet_row, assembled_from. intros H.
  destruct (metric_or_zero tweet "retweet_count") as [|a]; [discriminate|].
  destruct (metric_or_zero tweet "like_count") as [|b]; [discriminate|].
  injection H as <- <-. simpl. done.
Qed.

Lemma rows_assembled env tweets outs :
  Forall2 (fun t o => tweet_row env t = inr o) tweets outs ->
  Forall2 (assembled_from env) tweets (map fst outs).
Proof.
  induction 1 as [|t [r sp] ts os Ho _ IH]; simpl; constructor; [|done].
  by apply (tweet_row_assembled _ _ _ sp).
Qed.

Lemma dict_to_list_headers (r : TweetData) :
  dict_to_list headers r
  = [str_int (tweet_id r); text r;
     match created_at r with Some d => str_datetime d | None => "" end;
     sentiment r; str_float (polarity_signbit r) (polarity_score r);
     str_int (retweet_count r); str_int (like_count r)].
Proof.
  unfold dict_to_list, headers. cbn [map]. unfold rowdict_get.
  cbn [String.eqb Ascii.eqb Bool.eqb csv_field].
  destruct (created_at r); reflexivity.
Qed.

Lemma assembled_row_no_linebreak env tweet r :
  assembled_from env tweet r -> Forall no_linebreak (dict_to_list headers r).
Proof.
  intros (_ & Htext & _ & Hlabel & _). rewrite dict_to_list_headers.
  repeat match goal with
         | |- Forall no_linebreak (_ :: _) => constructor
         | |- Forall no_linebreak [] => constructor
         end;
    auto using str_int_no_linebreak, str_float_no_linebreak.
  - rewrite Htext. apply clean_text_no_linebreak.
  - destruct (created_at r);
      [apply str_datetime_no_linebreak | apply no_linebreak_empty].
  - rewrite Hlabel. apply label_no_linebreak.
Qed.

Lemma headers_no_linebreak : Forall no_linebreak headers.
Proof.
  unfold headers.
  repeat match goal with
         | |- Forall no_linebreak (_ :: _) => constructor
         | |- Forall no_linebreak [] => constructor
         end;
    by apply literal_no_linebreak.
Qed.

(** ** Rounding *)

Lemma round_half_even_near (x : Q) :
  (Qabs (x - inject_Z (round_half_even x)) <= 1 # 2)%Q.
Proof.
  unfold round_half_even, Qgtb.
  pose proof (Qfloor_le x) as Hlo. pose proof (Qlt_floor x) as Hhi.
  rewrite inject_Z_plus in Hhi. change (inject_Z 1) with 1%Q in Hhi.
  destruct (Qltb (x - inject_Z (Qfloor x)) (1 # 2)) eqn:H1.
  { apply Qltb_lt in H1. apply Qabs_case; intros; lra. }
  apply Qltb_ge in H1.
  destruct (Qltb (1 # 2) (x - inject_Z (Qfloor x))) eqn:H2.
  { rewrite inject_Z_plus. change (inject_Z 1) with 1%Q.
    apply Qabs_case; intros; lra. }
  apply Qltb_ge in H2.
  destruct (Z.even (Qfloor x));
    [|rewrite inject_Z_plus; change (inject_Z 1) with 1%Q];
    apply Qabs_case; intros; lra.
Qed.

Lemma round3_near (x : Q) :
  exists k : Z,
    round3 x = Qmake k 1000 /\ (Qabs (x - round3 x) <= 1 # 2000)%Q.
Proof.
  exists (round_half_even (x * 1000)). split; [done|]. unfold round3.
  pose proof (round_half_even_near (x * 1000)) as H.
  set (k := round_half_even (x * 1000)) in *.
  assert (E : (x - (k # 1000) == (x * 1000 - inject_Z k) * (1 # 1000))%Q).
  { rewrite (Qmake_Qdiv k 1000). change (inject_Z (Z.pos 1000)) with 1000%Q.
    field. }
  rewrite E, Qabs_Qmult.
  change (Qabs (1 # 1000)) with (1 # 1000)%Q.
  set (a := Qabs (x * 1000 - inject_Z k)) in *. lra.
Qed.

(** ** Reading the text of a number back *)

Lemma digit_value_char (d : N) :
  (d < 10)%N -> digit_value (pretty_N_char d) = Some d.
Proof.
  intros H. destruct d as [|p]; [reflexivity|].
  do 4 (destruct p as [p|p|]; try reflexivity; try lia).
Qed.

Lemma pretty_N_go_append (x : N) :
  forall s t, pretty_N_go x s +:+ t = pretty_N_go x (s +:+ t).
Proof.
  induction (N.lt_wf_0 x) as [x _ IH]. intros s t.
  destruct (decide (x = 0%N)) as [->|Hx]; [by rewrite !pretty_N_go_0|].
  rewrite (pretty_N_go_step x s), (pretty_N_go_step x (s +:+ t)) by lia.
  rewrite IH by (apply N.div_lt; lia).
  reflexivity.
Qed.

Lemma read_digits_pretty_N_go (x : N) :
  exists (m : N) (k : nat),
    ((0 < x)%N -> 0 < k)
    /\ forall s acc count,
         read_digits (pretty_N_go x s) acc count
         = read_digits s (acc * m + x)%N (count + k).
Proof.
  induction (N.lt_wf_0 x) as [x _ IH].
  destruct (decide (x = 0%N)) as [->|Hx].
  { exists 1%N, 0. split; [lia|]. intros s acc count.
    rewrite pretty_N_go_0. f_equal; [f_equal; lia | lia]. }
  destruct (IH (x / 10)%N) as (m & k & _ & E); [apply N.div_lt; lia|].
  exists (m * 10)%N, (S k). split; [lia|]. intros s acc count.
  rewrite pretty_N_go_step, E by lia. cbn [read_digits].
  rewrite digit_value_char by (apply N.mod_lt; lia).
  pose proof (N.div_mod x 10 ltac:(lia)) as Hdm.
  f_equal; [|lia]. lia.
Qed.

Lemma read_digits_pretty (x : N) :
  exists k : nat,
    forall rest,
      read_digits (pretty x +:+ rest) 0 0 = read_digits rest x (S k).
Proof.
  unfold pretty, pretty_N. case_decide as Hx.
  - subst x. exists 0. reflexivity.
  - destruct (read_digits_pretty_N_go x) as (m & [|k] & Hk & E);
      [exfalso; lia|].
    exists k. intros rest. rewrite pretty_N_go_append, E. reflexivity.
Qed.

(** Where [read_digits] made progress the text starts with a digit, so not
    with a minus sign. *)
Lemma read_digits_head (c : ascii) (s : string) n k rest :
  read_digits (String c s) 0 0 = (n, S k, rest) -> Ascii.eqb c "-" = false.
Proof.
  destruct (Ascii.eqb_spec c "-") as [->|]; [|done].
  cbn. discriminate.
Qed.

Lemma read_digits_stop (c : ascii) (s : string) acc count :
  digit_value c = None ->
  read_digits (String c s) acc count = (acc, count, String c s).
Proof. intros H. cbn [read_digits]. by rewrite H. Qed.

Lemma append_empty_r (s : string) : s +:+ "" = s.
Proof.
  induction s as [|c s IH]; [done|].
  change (String c (s +:+ "") = String c s). by f_equal.
Qed.

Lemma read_digits_pretty_all (x : N) :
  exists k : nat, read_digits (pretty x) 0 0 = (x, S k, "").
Proof.
  destruct (read_digits_pretty x) as [k E]. exists k.
  specialize (E ""). by rewrite append_empty_r in E.
Qed.

Lemma read_int_pretty_N (x : N) : read_int (pretty x) = Some (Z.of_N x).
Proof.
  destruct (read_digits_pretty_all x) as [k E]. unfold read_int.
  destruct (pretty x) as [|c s]; [discriminate E|].
  rewrite (read_digits_head _ _ _ _ _ E), E. reflexivity.
Qed.

Lemma read_int_str_int (z : Z) : read_int (str_int z) = Some z.
Proof.
  unfold str_int, pretty at 1, pretty_Z. destruct z as [|p|p].
  - reflexivity.
  - apply (read_int_pretty_N (N.pos p)).
  - destruct (read_digits_pretty_all (N.pos p)) as [k E].
    change (read_int (String "-" (pretty (N.pos p))) = Some (Z.neg p)).
    cbn [read_int Ascii.eqb Bool.eqb]. rewrite E. reflexivity.
Qed.

Lemma frac_text_reads_back (frac : N) :
  (frac < 1000)%N -> frac_reads_back frac = true.
Proof.
  intros H.
  assert (Hall : forallb frac_reads_back (map N.of_nat (seq 0 1000)) = true)
    by (vm_compute; reflexivity).
  rewrite forallb_forall in Hall. apply Hall.
  apply in_map_iff. exists (N.to_nat frac). split; [lia|].
  apply in_seq. lia.
Qed.

Lemma Qfloor_thousandths (k : Z) : Qfloor ((k # 1000) * 1000) = k.
Proof.
  unfold Qfloor, Qmult. cbn [Qnum Qden]. change (1000 * 1)%positive with 1000%positive.
  apply Z.div_mul. lia.
Qed.

(** The text of a float with [k] thousandths reads back as that value, and
    starts with a minus sign exactly when the float is negative or is the
    negative zero. *)
Lemma read_decimal_str_float (signbit : bool) (k : Z) :
  exists v : Q,
    read_decimal (str_float signbit (k # 1000))
    = Some ((k <? 0)%Z || ((k =? 0)%Z && signbit), v)
    /\ (v == k # 1000)%Q.
Proof.
  unfold str_float. rewrite Qfloor_thousandths.
  set (a := Z.abs_N k). set (minus := (k <? 0)%Z || ((k =? 0)%Z && signbit)).
  destruct (read_digits_pretty (a / 1000)%N) as [n1 E1].
  specialize (E1 (String "." (frac_text (a mod 1000)%N))).
  rewrite read_digits_stop in E1 by reflexivity.
  pose proof (frac_text_reads_back (a mod 1000)%N
                ltac:(apply N.mod_lt; lia)) as Hfrac.
  unfold frac_reads_back in Hfrac.
  destruct (read_digits (frac_text (a mod 1000)) 0 0)
    as [[numerator [|n2]] [|c rest]] eqn:E2; try discriminate Hfrac.
  apply Z.eqb_eq in Hfrac.
  assert (Hv : (inject_Z (Z.of_N (a / 1000))
                + Qmake (Z.of_N numerator) (Pos.pow 10 (Pos.of_succ_nat n2))
                == Z.of_N a # 1000)%Q).
  { pose proof (N.div_mod a 1000 ltac:(lia)) as Hdm.
    unfold Qeq, Qplus, inject_Z. cbn [Qnum Qden].
    set (d := Pos.pow 10 (Pos.of_succ_nat n2)) in *.
    rewrite N2Z.inj_mod in Hfrac. rewrite N2Z.inj_div.
    pose proof (Z.div_mod (Z.of_N a) 1000 ltac:(lia)) as Hz.
    rewrite Pos2Z.inj_mul. nia. }
  set (v := (inject_Z (Z.of_N (a / 1000))
             + Qmake (Z.of_N numerator) (Pos.pow 10 (Pos.of_succ_nat n2)))%Q)
    in *.
  exists (if minus then (- v)%Q else v). split.
  - unfold read_decimal. destruct minus eqn:Hm.
    + change ("-" +:+ ?s) with (String "-" s).
      change ("." +:+ ?s) with (String "." s).
      cbn [Ascii.eqb Bool.eqb]. rewrite E1. cbn [Ascii.eqb Bool.eqb].
      rewrite E2. reflexivity.
    + change ("" +:+ ?s) with s. change ("." +:+ ?s) with (String "." s).
      remember (pretty (a / 1000)%N
                +:+ String "." (frac_text (a mod 1000)%N)) as body eqn:Ebody.
      destruct body as [|c s]; [discriminate E1|].
      rewrite (read_digits_head _ _ _ _ _ E1), E1. cbn [Ascii.eqb Bool.eqb].
      rewrite E2. reflexivity.
  - destruct minus eqn:Hm.
    + rewrite Hv. subst minus a.
      assert (k <= 0)%Z as Hk.
      { destruct (Z.ltb_spec k 0); [lia|]. destruct (Z.eqb_spec k 0); [lia|].
        discriminate Hm. }
      unfold Qeq, Qopp. cbn [Qnum Qden]. rewrite N2Z.inj_abs_N. lia.
    + rewrite Hv. subst minus a.
      assert (0 <= k)%Z as Hk.
      { destruct (Z.ltb_spec k 0); [discriminate Hm | lia]. }
      unfold Qeq. cbn [Qnum Qden]. rewrite N2Z.inj_abs_N. lia.
Qed.

(** The sign of a polarity survives the rounding. *)
Lemma round3_sign (p : Q) :
  ((round_half_even (p * 1000) < 0)%Z -> (p < 0)%Q)
  /\ ((0 < round_half_even (p * 1000))%Z -> (0 < p)%Q).
Proof.
  pose proof (round_half_even_near (p * 1000)) as H.
  set (k := round_half_even (p * 1000)) in *. split; intros Hk.
  - assert (inject_Z k <= inject_Z (-1))%Q as Hq by (rewrite <- Zle_Qle; lia).
    change (inject_Z (-1)) with (-1)%Q in Hq.
    revert H. apply Qabs_case; intros; lra.
  - assert (inject_Z 1 <= inject_Z k)%Q as Hq by (rewrite <- Zle_Qle; lia).
    change (inject_Z 1) with 1%Q in Hq.
    revert H. apply Qabs_case; intros; lra.
Qed.

(** The minus sign of the stored polarity is the sign bit of the float. *)
Lemma signbit_shown (p : Q) (signbit : bool) :
  let k := round_half_even (p * 1000) in
  let stored := Qltb p 0 || (Qeq_bool p 0 && signbit) in
  (k <? 0)%Z || ((k =? 0)%Z && stored) = stored.
Proof.
  cbv zeta. destruct (round3_sign p) as [Hneg Hpos].
  destruct (Z.ltb_spec (round_half_even (p * 1000)) 0) as [Hk|Hk].
  { apply Hneg, Qltb_lt in Hk. by rewrite Hk. }
  destruct (Z.eqb_spec (round_half_even (p * 1000)) 0) as [Hz|Hz]; [done|].
  assert (0 < p)%Q as Hp by (apply Hpos; lia).
  assert (Qltb p 0 = false) as -> by (apply Qltb_ge; lra).
  assert (Qeq_bool p 0 = false) as ->; [|done].
  apply not_true_is_false. intros E%Qeq_bool_iff. lra.
Qed.

Lemma tweet_row_signbit env tweet r sp :
  tweet_row env tweet = inr (r, sp) ->
  polarity_signbit r
  = Qltb (textblob_polarity env (text r)) 0
    || (Qeq_bool (textblob_polarity env (text r)) 0
        && textblob_signbit env (text r)).
Proof.
  unfold tweet_row, analyze_sentiment. intros H.
  destruct (metric_or_zero tweet "retweet_count"); [discriminate H|].
  destruct (metric_or_zero tweet "like_count"); [discriminate H|].
  injection H as <- <-. reflexivity.
Qed.

(** What the file holds for a record assembled by [process_tweets]: a
    polarity that is a multiple of 1/1000 next to the scorer's, with the
    sign bit of the float, and a text of it that reads back as that value
    with that sign. *)
Lemma tweet_row_polarity_stored env tweet r sp :
  tweet_row env tweet = inr (r, sp) ->
  let p := textblob_polarity env (text r) in
  (exists k : Z,
      polarity_score r = Qmake k 1000
      /\ (Qabs (p - polarity_score r) <= 1 # 2000)%Q)
  /\ polarity_signbit r
     = Qltb p 0 || (Qeq_bool p 0 && textblob_signbit env (text r))
  /\ exists v : Q,
       read_decimal (str_float (polarity_signbit r) (polarity_score r))
       = Some (polarity_signbit r, v)
       /\ (v == polarity_score r)%Q.
Proof.
  intros H. cbv zeta.
  pose proof (tweet_row_signbit _ _ _ _ H) as Hsign.
  destruct (tweet_row_assembled _ _ _ _ H) as [(_ & _ & _ & _ & Hscore & _) _].
  split; [rewrite Hscore; apply round3_near|]. split; [exact Hsign|].
  rewrite Hscore. unfold round3.
  destruct (read_decimal_str_float (polarity_signbit r)
              (round_half_even (textblob_polarity env (text r) * 1000)))
    as (v & Hread & Hv).
  exists v. split; [|exact Hv]. rewrite Hread. do 2 f_equal.
  rewrite Hsign at 1 2. apply signbit_shown.
Qed.

Lemma exported_events_read cfg tweets outs summary publish n :
  summary_block cfg n summary ->
  let evs := exported_events cfg tweets outs summary publish in
  export_succeeded evs = true
  /\ run_completed evs = true
  /\ publish_attempted evs = publish_attempted publish
  /\ publish_failed evs = publish_failed publish
  /\ publish_skipped evs = publish_skipped publish.
Proof.
  intros (dist & avg & overall & -> & Hdist). unfold exported_events.
  cbv [export_succeeded run_completed publish_attempted publish_failed
       publish_skipped opening querying assembling closing].
  repeat (rewrite ?existsb_app; cbn [existsb app orb];
          rewrite ?existsb_tweet_msgs by done;
          rewrite ?(existsb_distribution _ dist) by (done || exact Hdist)).
  rewrite ?orb_false_r, ?orb_true_r. repeat split.
Qed.

Lemma publish_run_read env cfg content store publish store' :
  publish_run env cfg content store publish store' ->
  (AWS_BUCKET_NAME cfg = "YOUR_BUCKET_NAME"
   /\ publish_attempted publish = false /\ publish_skipped publish = true
   /\ publish_failed publish = false /\ store' = store)
  \/ (AWS_BUCKET_NAME cfg <> "YOUR_BUCKET_NAME"
      /\ publish_attempted publish = true /\ publish_skipped publish = false
      /\ ((publish_failed publish = true /\ store' = store
           /\ exists before e,
                publish = before ++ [Printed (MsgUploadError e);
                                     Printed MsgCredentialsHint])
          \/ (publish_failed publish = false
              /\ boto3_client env = None
              /\ upload_fault env "tweet_sentiments.csv" (AWS_BUCKET_NAME cfg)
                   (object_key env "tweet_sentiments.csv") = None))).
Proof.
  destruct 1 as [Heq | calls e Hne Hcalls | key Hne -> Hb Hu].
  - left. repeat split; done.
  - right. split; [done|]. split; [reflexivity|]. split.
    + cbv [publish_skipped]. cbn [existsb orb]. rewrite existsb_app.
      rewrite (existsb_calls _ calls) by (done || exact Hcalls). reflexivity.
    + left. split; [|split; [reflexivity|]].
      * cbv [publish_failed]. cbn [existsb orb]. rewrite existsb_app.
        cbn [existsb orb]. by rewrite orb_true_r.
      * by exists (Call CallBoto3Client :: calls), e.
  - right. split; [done|]. split; [reflexivity|]. split; [reflexivity|].
    right. split; [reflexivity|]. by split.
Qed.

(** Splits a run of [main] into the cases of [main_run] and identifies its
    events. *)
Ltac run_cases Hmain Htrace :=
  match type of Hmain with
  | main ?env ?cfg ?w = _ =>
      let r0 := fresh "r0" in
      let w0 := fresh "w0" in
      let E0 := fresh "E0" in
      let Hrun := fresh "Hrun" in
      destruct (main_runs env cfg w) as (r0 & w0 & E0 & Hrun);
      rewrite E0 in Hmain; injection Hmain as <- <-; clear E0;
      destruct Hrun;
      cbv [log] in Htrace; cbn [trace] in Htrace;
      apply app_inv_head in Htrace; subst
  end.

(** ** The claims *)

(** C1. The label computed by [analyze_sentiment] is ["positive"] exactly
    when the polarity returned by the scorer is greater than zero,
    ["negative"] exactly when it is less than zero and ["neutral"] exactly
    when it is zero; the label is always one of these three strings, no two
    of which can hold at once, and the polarity returned is the scorer's. *)
Theorem analyze_sentiment_label (env : Env) (tweet_text : string) :
  let p := textblob_polarity env tweet_text in
  let label := fst (analyze_sentiment env tweet_text) in
  snd (analyze_sentiment env tweet_text) = p /\
  (label = "positive" <-> (p > 0)%Q) /\
  (label = "negative" <-> (p < 0)%Q) /\
  (label = "neutral" <-> (p == 0)%Q) /\
  (label = "positive" \/ label = "negative" \/ label = "neutral") /\
  ~ (label = "positive" /\ label = "negative") /\
  ~ (label = "positive" /\ label = "neutral") /\
  ~ (label = "negative" /\ label = "neutral").
Proof.
  intros p label. subst label. unfold analyze_sentiment, Qgtb. fold p. simpl.
  destruct (Qltb 0 p) eqn:Hpos; [|destruct (Qltb p 0) eqn:Hneg]; simpl.
  - apply Qltb_lt in Hpos.
    repeat split; try discriminate; try tauto; intros H; try lra;
      try (destruct H; discriminate).
  - apply Qltb_ge in Hpos. apply Qltb_lt in Hneg.
    repeat split; try discriminate; try tauto; intros H; try lra;
      try (destruct H; discriminate).
  - apply Qltb_ge in Hpos. apply Qltb_ge in Hneg.
    repeat split; try discriminate; try tauto; intros H; try lra;
      try (destruct H; discriminate).
Qed.

Lemma process_tweets_returned env tweets w rs w' :
  process_tweets env tweets w = (inr rs, w') ->
  exists outs,
    Forall2 (fun t o => tweet_row env t = inr o) tweets outs
    /\ rs = map fst outs /\ w' = log (tweet_msgs 1 outs) w.
Proof.
  unfold process_tweets. intros E.
  destruct (tweets_split env tweets)
    as [[outs Hrows] | (pre & t & post & outs & key & -> & Hpre & Ht)].
  - rewrite (process_loop_ok _ _ _ Hrows) in E. injection E as <- <-.
    by exists outs.
  - rewrite (process_loop_raises _ _ _ _ _ _ Hpre Ht) in E. discriminate.
Qed.

(** C2, as the code has it. When every post's metrics object is falsy or
    holds both counters, [process_tweets] returns exactly one record per
    post, the i-th record assembled from the i-th post, so
    [len(output) == len(input)]; and whenever [process_tweets] returns at
    all, its output has this shape. *)
Theorem process_tweets_one_record_per_post env tweets w :
  (Forall (fun t => metrics_complete t = true) tweets ->
   exists rs w',
     process_tweets env tweets w = (inr rs, w')
     /\ Forall2 (assembled_from env) tweets rs
     /\ length rs = length tweets)
  /\ (forall rs w',
        process_tweets env tweets w = (inr rs, w') ->
        Forall2 (assembled_from env) tweets rs
        /\ length rs = length tweets
        /\ Forall (fun t => metrics_complete t = true) tweets).
Proof.
  split.
  - intros Hall. destruct (tweets_complete_rows env tweets Hall) as [outs Hrows].
    exists (map fst outs), (log (tweet_msgs 1 outs) w). split; [|split].
    + unfold process_tweets. by rewrite (process_loop_ok _ _ _ Hrows).
    + by apply rows_assembled.
    + rewrite length_map. by eapply Forall2_rows_length.
  - intros rs w' E.
    destruct (process_tweets_returned _ _ _ _ _ E) as (outs & Hrows & -> & _).
    split; [by apply rows_assembled|]. split.
    + rewrite length_map. by eapply Forall2_rows_length.
    + clear E. induction Hrows as [|t o ts os Ho _ IH]; constructor; [|done].
      by eapply tweet_row_inr_complete.
Qed.

Lemma process_tweets_one_record_per_post_witness :
  exists rs w',
    process_tweets (sample_env two_tweets None None)
      [sample_tweet; bare_tweet] empty_world = (inr rs, w')
    /\ Forall2 (assembled_from (sample_env two_tweets None None))
         [sample_tweet; bare_tweet] rs
    /\ length rs = 2.
Proof.
  apply (proj1 (process_tweets_one_record_per_post
                  (sample_env two_tweets None None)
                  [sample_tweet; bare_tweet] empty_world)).
  repeat constructor.
Defined.

(** C2, as stated, fails: on a post whose metrics object holds only
    ['like_count'], [process_tweets] raises [KeyError] and produces no
    record list at all. *)
Lemma process_tweets_partial_metrics_raises :
  fst (process_tweets (sample_env two_tweets None None)
         [partial_tweet] empty_world)
  = inl (KeyError "retweet_count")
  /\ ~ (exists rs w',
          process_tweets (sample_env two_tweets None None)
            [partial_tweet] empty_world = (inr rs, w')
          /\ length rs = length [partial_tweet]).
Proof.
  assert (E : fst (process_tweets (sample_env two_tweets None None)
                     [partial_tweet] empty_world)
              = inl (KeyError "retweet_count")) by (vm_compute; reflexivity).
  split; [exact E|]. intros (rs & w' & H & _). rewrite H in E.
  cbn [fst] in E. discriminate E.
Qed.

(** C10. The counters default to 0 exactly when the metrics object is
    falsy ([None] or empty). For a truthy metrics object the counters are
    read by key: a missing ['retweet_count'] or ['like_count'] raises
    [KeyError] instead of defaulting, and the exception leaves
    [process_tweets], so assembly is not total. *)
Theorem engagement_default_only_when_falsy env tweet :
  (truthy_metrics (Tweet.public_metrics tweet) = false ->
   exists r sp,
     tweet_row env tweet = inr (r, sp)
     /\ retweet_count r = 0%Z /\ like_count r = 0%Z)
  /\ (forall d,
        Tweet.public_metrics tweet = Some d -> d <> ∅ ->
        (d !! "retweet_count" = None ->
         tweet_row env tweet = inl (KeyError "retweet_count"))
        /\ (is_Some (d !! "retweet_count") -> d !! "like_count" = None ->
            tweet_row env tweet = inl (KeyError "like_count"))
        /\ (forall a b,
              d !! "retweet_count" = Some a -> d !! "like_count" = Some b ->
              exists r sp,
                tweet_row env tweet = inr (r, sp)
                /\ retweet_count r = a /\ like_count r = b))
  /\ (forall e pre post w,
        tweet_row env tweet = inl e ->
        Forall (fun t => metrics_complete t = true) pre ->
        exists key w',
          e = KeyError key
          /\ process_tweets env (pre ++ tweet :: post) w = (inl e, w')).
Proof.
  split; [|split].
  - intros Hf. unfold tweet_row.
    rewrite !(metric_or_zero_falsy _ _ Hf). simpl. by eexists _, _.
  - intros d Hd Hne.
    assert (Hsize : size d <> 0) by (by rewrite map_size_non_empty_iff).
    unfold tweet_row. rewrite !(metric_or_zero_truthy _ _ _ Hd Hsize).
    unfold getitem. split; [|split].
    + by intros ->.
    + by intros [a ->] ->.
    + intros a b -> ->. simpl. by eexists _, _.
  - intros e pre post w He Hpre.
    destruct (tweets_complete_rows env pre Hpre) as [outs Hrows].
    assert (Hkey : exists key, e = KeyError key).
    { destruct (metrics_complete tweet) eqn:Hc.
      - destruct (tweet_row_complete env tweet Hc) as [o Ho]. congruence.
      - destruct (tweet_row_incomplete env tweet Hc) as [E|E];
          rewrite E in He; injection He as <-; by eexists. }
    destruct Hkey as [key ->]. exists key, (log (tweet_msgs 1 outs) w).
    split; [done|]. unfold process_tweets.
    by rewrite (process_loop_raises _ _ _ _ _ _ Hrows He).
Qed.

Lemma engagement_default_only_when_falsy_witness :
  (exists r sp,
     tweet_row (sample_env two_tweets None None) bare_tweet = inr (r, sp)
     /\ retweet_count r = 0%Z /\ like_count r = 0%Z)
  /\ tweet_row (sample_env two_tweets None None) partial_tweet
     = inl (KeyError "retweet_count")
  /\ (exists key w',
        KeyError "retweet_count" = KeyError key
        /\ process_tweets (sample_env two_tweets None None)
             ([sample_tweet] ++ partial_tweet :: [bare_tweet]) empty_world
           = (inl (KeyError "retweet_count"), w')).
Proof.
  split; [|split].
  - apply (proj1 (engagement_default_only_when_falsy
                    (sample_env two_tweets None None) bare_tweet)).
    reflexivity.
  - apply (proj1 (proj1 (proj2 (engagement_default_only_when_falsy
                                  (sample_env two_tweets None None)
                                  partial_tweet))
                    (<["like_count" := 5%Z]> ∅) eq_refl
                    ltac:(by apply insert_non_empty))).
    reflexivity.
  - apply (proj2 (proj2 (engagement_default_only_when_falsy
                           (sample_env two_tweets None None) partial_tweet))).
    + vm_compute. reflexivity.
    + repeat constructor.
Defined.

(** C7. On an empty sequence [generate_summary] prints the single line
    "No results to summarize" and returns: no report, no division. On any
    sequence it never raises [ZeroDivisionError]; on a non-empty sequence of
    records labelled as the scorer labels them it returns with the report
    printed, every division having had a non-zero divisor. *)
Theorem generate_summary_no_division_by_zero cfg :
  (forall w, generate_summary cfg [] w = (inr tt, log [Printed MsgNoResults] w))
  /\ (forall results w,
        fst (generate_summary cfg results w) <> inl ZeroDivisionError)
  /\ (forall results w,
        results <> [] ->
        Forall (fun r => In (sentiment r) ["positive"; "negative"; "neutral"])
          results ->
        exists evs,
          summary_block cfg (length results) evs
          /\ generate_summary cfg results w = (inr tt, log evs w)).
Proof.
  split; [|split].
  - intros w. apply generate_summary_empty.
  - intros results w. destruct results as [|r rs]; [discriminate|].
    destruct (count_loop (r :: rs)
                [("positive", 0); ("negative", 0); ("neutral", 0)] 0%Q)
      as [e|[counts sum]] eqn:Hc.
    + rewrite (generate_summary_raised cfg (r :: rs) e w ltac:(discriminate) Hc).
      destruct (count_loop_error _ _ _ _ Hc) as [key ->]. discriminate.
    + destruct (generate_summary_counted cfg (r :: rs) counts sum
                  ltac:(discriminate) Hc) as (evs & _ & E).
      rewrite E. discriminate.
  - intros results w Hne Hall.
    destruct (count_loop_known results
                [("positive", 0); ("negative", 0); ("neutral", 0)] 0%Q Hall)
      as (counts & sum & Hc).
    destruct (generate_summary_counted cfg _ _ _ Hne Hc) as (evs & Hb & E).
    exists evs. by rewrite E.
Qed.

Lemma generate_summary_no_division_by_zero_witness :
  truediv 1 0 = inl ZeroDivisionError
  /\ generate_summary default_config [] empty_world
     = (inr tt, log [Printed MsgNoResults] empty_world)
  /\ exists evs,
       summary_block default_config (length [sample_record]) evs
       /\ generate_summary default_config [sample_record] empty_world
          = (inr tt, log evs empty_world).
Proof.
  split; [reflexivity|]. split.
  - apply (proj1 (generate_summary_no_division_by_zero default_config)).
  - apply (proj2 (proj2 (generate_summary_no_division_by_zero default_config))).
    + intros E. discriminate E.
    + constructor; [|constructor]. right. left. reflexivity.
Defined.

(** C8. For every post, the text stored in its record is the raw text with
    each LF and each CR replaced by a space; the label and the stored
    polarity are the scorer's answer on that cleaned text; and no field of
    the rows handed to the csv writer, header included, contains LF or CR. *)
Theorem clean_text_stored_and_scored env tweets w :
  Forall (fun t => metrics_complete t = true) tweets ->
  exists rs w',
    process_tweets env tweets w = (inr rs, w')
    /\ Forall2 (fun t r =>
                  chars (text r) = map despace (chars (Tweet.text t))
                  /\ no_linebreak (text r)
                  /\ sentiment r = fst (analyze_sentiment env (text r))
                  /\ polarity_score r
                     = round3 (snd (analyze_sentiment env (text r))))
         tweets rs
    /\ Forall (Forall no_linebreak) (csv_of rs).
Proof.
  intros Hall. destruct (tweets_complete_rows env tweets Hall) as [outs Hrows].
  exists (map fst outs), (log (tweet_msgs 1 outs) w).
  pose proof (rows_assembled _ _ _ Hrows) as Hasm.
  split; [|split].
  - unfold process_tweets. by rewrite (process_loop_ok _ _ _ Hrows).
  - eapply Forall2_impl; [exact Hasm|].
    intros t r (_ & Htext & _ & Hlabel & Hscore & _).
    rewrite Htext at 1 2. rewrite clean_text_chars.
    repeat split; [apply clean_text_no_linebreak | exact Hlabel | exact Hscore].
  - unfold csv_of. constructor; [apply headers_no_linebreak|].
    apply Forall_map. clear Hrows Hall.
    induction Hasm as [|t r ts rs Hr _ IH]; [constructor|].
    constructor; [|exact IH]. by eapply assembled_row_no_linebreak.
Qed.

Lemma clean_text_stored_and_scored_witness :
  exists rs w',
    process_tweets (sample_env two_tweets None None)
      [sample_tweet; bare_tweet] empty_world = (inr rs, w')
    /\ Forall2 (fun t r =>
                  chars (text r) = map despace (chars (Tweet.text t))
                  /\ no_linebreak (text r)
                  /\ sentiment r
                     = fst (analyze_sentiment
                              (sample_env two_tweets None None) (text r))
                  /\ polarity_score r
                     = round3 (snd (analyze_sentiment
                                      (sample_env two_tweets None None)
                                      (text r))))
         [sample_tweet; bare_tweet] rs
    /\ Forall (Forall no_linebreak) (csv_of rs).
Proof.
  apply (clean_text_stored_and_scored (sample_env two_tweets None None)
           [sample_tweet; bare_tweet] empty_world).
  constructor; [reflexivity|]. constructor; [reflexivity|]. constructor.
Defined.

(** C9. When neither opening nor writing the file fails, the exported file
    is the header row with the seven column names in order, followed by one
    row per record in input order; each row holds the record's fields in
    column order. The polarity of a record is the scorer's polarity rounded
    to a multiple of 1/1000 at distance at most 1/2000, with the sign bit of
    the float, and its text in the file reads back as that value with that
    sign: a faint negative polarity is stored as [-0.0]. The three integer
    columns read back as the record's integers. A file already at that path
    is replaced. *)
Theorem exported_file_layout env tweets filename w :
  Forall (fun t => metrics_complete t = true) tweets ->
  open_fault env filename = None ->
  (forall n, write_fault env filename n = None) ->
  exists rs w1 w2,
    process_tweets env tweets w = (inr rs, w1)
    /\ save_to_csv env rs filename w1 = (inr true, w2)
    /\ Forall2 (assembled_from env) tweets rs
    /\ disk w2 !! filename
       = Some (["tweet_id"; "text"; "created_at"; "sentiment";
                "polarity_score"; "retweet_count"; "like_count"]
               :: map (fun r =>
                         [str_int (tweet_id r); text r;
                          match created_at r with
                          | Some d => str_datetime d
                          | None => ""
                          end;
                          sentiment r;
                          str_float (polarity_signbit r) (polarity_score r);
                          str_int (retweet_count r); str_int (like_count r)])
                    rs)
    /\ Forall (fun r =>
                 (exists k : Z,
                     polarity_score r = Qmake k 1000
                     /\ (Qabs (textblob_polarity env (text r)
                               - polarity_score r)
                         <= 1 # 2000)%Q)
                 /\ polarity_signbit r
                    = Qltb (textblob_polarity env (text r)) 0
                      || (Qeq_bool (textblob_polarity env (text r)) 0
                          && textblob_signbit env (text r))
                 /\ (exists v : Q,
                       read_decimal
                         (str_float (polarity_signbit r) (polarity_score r))
                       = Some (polarity_signbit r, v)
                       /\ (v == polarity_score r)%Q)
                 /\ read_int (str_int (tweet_id r)) = Some (tweet_id r)
                 /\ read_int (str_int (retweet_count r))
                    = Some (retweet_count r)
                 /\ read_int (str_int (like_count r)) = Some (like_count r))
         rs.
Proof.
  intros Hall Ho Hw.
  destruct (tweets_complete_rows env tweets Hall) as [outs Hrows].
  pose proof (rows_assembled _ _ _ Hrows) as Hasm.
  eexists (map fst outs), _, _. split; [|split; [|split; [|split]]].
  - unfold process_tweets. by rewrite (process_loop_ok _ _ _ Hrows).
  - by apply save_to_csv_ok.
  - exact Hasm.
  - cbn [disk]. rewrite lookup_insert_eq. unfold csv_of. f_equal. f_equal.
    apply map_ext. intros r. apply dict_to_list_headers.
  - clear Hasm Hall.
    induction Hrows as [|t [r sp] ts os Ho' _ IH]; [constructor|].
    cbn [map fst]. constructor; [|exact IH].
    destruct (tweet_row_polarity_stored _ _ _ _ Ho') as (Hk & Hsign & Hread).
    repeat split; auto using read_int_str_int.
Qed.

Lemma exported_file_layout_witness :
  exists rs w1 w2,
    process_tweets (sample_env two_tweets None None)
      [sample_tweet; bare_tweet] empty_world = (inr rs, w1)
    /\ save_to_csv (sample_env two_tweets None None) rs
         "tweet_sentiments.csv" w1 = (inr true, w2)
    /\ Forall2 (assembled_from (sample_env two_tweets None None))
         [sample_tweet; bare_tweet] rs
    /\ disk w2 !! "tweet_sentiments.csv"
       = Some (["tweet_id"; "text"; "created_at"; "sentiment";
                "polarity_score"; "retweet_count"; "like_count"]
               :: map (fun r =>
                         [str_int (tweet_id r); text r;
                          match created_at r with
                          | Some d => str_datetime d
                          | None => ""
                          end;
                          sentiment r;
                          str_float (polarity_signbit r) (polarity_score r);
                          str_int (retweet_count r); str_int (like_count r)])
                    rs)
    /\ Forall (fun r =>
                 (exists k : Z,
                     polarity_score r = Qmake k 1000
                     /\ (Qabs (textblob_polarity
                                 (sample_env two_tweets None None) (text r)
                               - polarity_score r)
                         <= 1 # 2000)%Q)
                 /\ polarity_signbit r
                    = Qltb (textblob_polarity
                              (sample_env two_tweets None None) (text r)) 0
                      || (Qeq_bool
                            (textblob_polarity
                               (sample_env two_tweets None None) (text r)) 0
                          && textblob_signbit
                               (sample_env two_tweets None None) (text r))
                 /\ (exists v : Q,
                       read_decimal
                         (str_float (polarity_signbit r) (polarity_score r))
                       = Some (polarity_signbit r, v)
                       /\ (v == polarity_score r)%Q)
                 /\ read_int (str_int (tweet_id r)) = Some (tweet_id r)
                 /\ read_int (str_int (retweet_count r))
                    = Some (retweet_count r)
                 /\ read_int (str_int (like_count r)) = Some (like_count r))
         rs.
Proof.
  apply (exported_file_layout (sample_env two_tweets None None)
           [sample_tweet; bare_tweet] "tweet_sentiments.csv" empty_world).
  - constructor; [reflexivity|]. constructor; [reflexivity|]. constructor.
  - reflexivity.
  - intros n. reflexivity.
Defined.

(** C3, as the code has it. In every run the summary is printed exactly when
    the export succeeded. If the export fails, [main] returns normally
    without printing the summary. If it succeeds, the summary printed is the
    one [generate_summary] produces from the records that [process_tweets]
    assembled from the fetched posts, the same records that are in the
    exported file, whatever the publish step does afterwards. *)
Theorem summary_follows_export env cfg w r w' evs :
  main env cfg w = (r, w') ->
  trace w' = trace w ++ evs ->
  summary_printed evs = export_succeeded evs
  /\ (export_failed evs = true ->
      assembly_reached evs = true /\ summary_printed evs = false
      /\ r = inr tt)
  /\ (export_succeeded evs = true ->
      assembly_reached evs = true
      /\ exists before summary after n,
           evs = before ++ summary ++ after
           /\ In (Printed (MsgFetched n)) before
           /\ summary_block cfg n summary
           /\ exists c resp tweets rs,
                tweepy_Client env (BEARER_TOKEN cfg) = inr c
                /\ search_recent_tweets env c (search_query cfg)
                     (TWEET_COUNT cfg) = inr resp
                /\ data resp = Some tweets
                /\ n = length tweets
                /\ Forall2 (assembled_from env) tweets rs
                /\ (forall w0, exists w1,
                       process_tweets env tweets w0 = (inr rs, w1))
                /\ (forall w0,
                       generate_summary cfg rs w0 = (inr tt, log summary w0))
                /\ disk w' !! "tweet_sentiments.csv" = Some (csv_of rs)).
Proof.
  intros Hmain Htrace. run_cases Hmain Htrace.
  1-5: read_events;
    (split; [reflexivity|
      split; intros Hx; first [discriminate Hx | repeat split; reflexivity]]).
  set (evs0 := opening cfg ++ querying cfg ++ assembling tweets outs
               ++ [Printed MsgStep4; Call (CallOpen "tweet_sentiments.csv");
                   Printed (MsgSaved "tweet_sentiments.csv")]
               ++ summary ++ [Printed MsgStep5] ++ publish ++ closing).
  match goal with
  | Hb : summary_block _ _ _, Hp : publish_run _ _ _ _ _ _ |- _ =>
      pose proof Hb as (dist & avg & overall & Esum & Hdist);
      assert (Hsum : summary_printed evs0 = true
                     /\ export_succeeded evs0 = true
                     /\ export_failed evs0 = false
                     /\ assembly_reached evs0 = true)
        by (subst evs0; rewrite Esum; destruct Hp; read_events; repeat split)
  end.
  destruct Hsum as (Hs1 & Hs2 & Hs3 & Hs4). fold evs0.
  rewrite Hs1, Hs2, Hs3, Hs4. split; [reflexivity|].
  split; [intros Hx; discriminate Hx|]. intros _. split; [reflexivity|].
  exists (opening cfg ++ querying cfg ++ assembling tweets outs
          ++ [Printed MsgStep4; Call (CallOpen "tweet_sentiments.csv");
              Printed (MsgSaved "tweet_sentiments.csv")]),
    summary, ([Printed MsgStep5] ++ publish ++ closing), (length tweets).
  split; [|split; [|split; [assumption|]]].
  - subst evs0. by rewrite <- !app_assoc.
  - unfold assembling. rewrite !in_app_iff. right. right. left. left. left.
    reflexivity.
  - match goal with
    | Hc : tweepy_Client _ _ = inr ?c,
      Hs : search_recent_tweets _ _ _ _ = inr ?resp,
      Hd : data _ = Some tweets,
      Hrows : Forall2 _ tweets outs,
      Hgen : forall w0, generate_summary _ _ w0 = _ |- _ =>
        exists c, resp, tweets, (map fst outs);
        split; [exact Hc|]; split; [exact Hs|]; split; [exact Hd|];
        split; [reflexivity|];
        split; [exact (rows_assembled _ _ _ Hrows)|];
        split; [intros w0; eexists; unfold process_tweets;
                by rewrite (process_loop_ok _ _ _ Hrows)|];
        split; [exact Hgen|]
    end.
    cbn [disk]. apply lookup_insert_eq.
Qed.

Lemma summary_follows_export_witness :
  let failed := main (sample_env two_tweets (Some (Exception "disk full"))
                        None)
                  configured empty_world in
  let exported := main (sample_env two_tweets None None) configured
                    empty_world in
  (summary_printed (trace (snd failed))
   = export_succeeded (trace (snd failed))
   /\ assembly_reached (trace (snd failed)) = true
   /\ summary_printed (trace (snd failed)) = false
   /\ fst failed = inr tt)
  /\ exists before summary after rs,
       trace (snd exported) = before ++ summary ++ after
       /\ Forall2 (assembled_from (sample_env two_tweets None None))
            [sample_tweet; bare_tweet] rs
       /\ (forall w0,
              generate_summary configured rs w0 = (inr tt, log summary w0))
       /\ disk (snd exported) !! "tweet_sentiments.csv" = Some (csv_of rs).
Proof.
  intros failed exported. split.
  - pose proof (summary_follows_export
                  (sample_env two_tweets (Some (Exception "disk full")) None)
                  configured empty_world (fst failed) (snd failed)
                  (trace (snd failed))
                  (surjective_pairing failed) eq_refl) as H.
    split; [exact (proj1 H)|].
    apply (proj1 (proj2 H)). vm_compute. reflexivity.
  - pose proof (summary_follows_export
                  (sample_env two_tweets None None)
                  configured empty_world (fst exported) (snd exported)
                  (trace (snd exported))
                  (surjective_pairing exported) eq_refl) as H.
    destruct (proj2 (proj2 H) ltac:(vm_compute; reflexivity))
      as (_ & before & summary & after & n & Eevs & _ & _
          & c & resp & tweets & rs & _ & Hs & Hd & _ & Hasm & _
          & Hgen & Hdisk).
    cbn [sample_env search_recent_tweets] in Hs. unfold two_tweets in Hs.
    injection Hs as <-. cbn [data] in Hd. injection Hd as <-.
    exists before, summary, after, rs. repeat split; assumption.
Defined.

(** C3, as stated, fails: when opening the file raises, the run has reached
    the assembly stage, the export has failed, and no summary is printed. *)
Lemma export_failure_suppresses_summary :
  let evs := trace (snd (main (sample_env two_tweets
                                 (Some (Exception "disk full")) None)
                           default_config empty_world)) in
  assembly_reached evs = true
  /\ export_failed evs = true
  /\ summary_printed evs = false.
Proof. vm_compute. repeat split. Qed.

(** C4. If the client connects and the provider answers the search with no
    posts ([data] is [None] or empty), [fetch_tweets] returns the empty list
    rather than raising, and [main] returns normally right after the search:
    the file system and the object store are untouched, no file is opened,
    no summary is printed. *)
Theorem empty_fetch_halts env cfg w c resp :
  tweepy_Client env (BEARER_TOKEN cfg) = inr c ->
  search_recent_tweets env c (search_query cfg) (TWEET_COUNT cfg) = inr resp ->
  data resp = None \/ data resp = Some [] ->
  (forall w0,
     exists w1,
       fetch_tweets env c (SEARCH_KEYWORD cfg) (TWEET_COUNT cfg) w0
       = (inr [], w1))
  /\ exists w',
       main env cfg w = (inr tt, w')
       /\ trace w' = trace w ++ opening cfg ++ querying cfg
                     ++ [Printed MsgNoTweets]
       /\ disk w' = disk w
       /\ s3_objects w' = s3_objects w
       /\ export_attempted (opening cfg ++ querying cfg ++ [Printed MsgNoTweets])
          = false
       /\ summary_printed (opening cfg ++ querying cfg ++ [Printed MsgNoTweets])
          = false.
Proof.
  intros Hc Hs Hdata.
  assert (Hfalsy : truthy_data (data resp) = false).
  { destruct Hdata as [-> | ->]; reflexivity. }
  split.
  - intros w0. eexists. by apply (fetch_tweets_empty _ _ _ _ resp).
  - destruct (main_runs env cfg w) as (r & w' & E & Hrun). exists w'.
    destruct Hrun; try congruence; try (destruct Hdata; congruence).
    split; [exact E|]. cbv [log]. cbn [trace disk s3_objects].
    repeat split; read_events; reflexivity.
Qed.

Lemma empty_fetch_halts_witness :
  exists w',
    main (sample_env (inr {| data := None |}) None None) default_config
      empty_world = (inr tt, w')
    /\ trace w' = trace empty_world ++ opening default_config
                  ++ querying default_config ++ [Printed MsgNoTweets]
    /\ disk w' = disk empty_world
    /\ s3_objects w' = s3_objects empty_world
    /\ export_attempted (opening default_config ++ querying default_config
                         ++ [Printed MsgNoTweets]) = false
    /\ summary_printed (opening default_config ++ querying default_config
                        ++ [Printed MsgNoTweets]) = false.
Proof.
  apply (proj2 (empty_fetch_halts
                  (sample_env (inr {| data := None |}) None None)
                  default_config empty_world
                  {| bearer_token := "YOUR_BEARER_TOKEN" |}
                  {| data := None |} eq_refl eq_refl (or_introl eq_refl))).
Defined.

(** C5. The publish step runs only when the bucket name differs from the
    placeholder, in every run; and in a run that got past the export it runs
    exactly then. With the placeholder left in place the step is skipped:
    no call to the object store is made, the store is unchanged, [main]
    returns normally after the closing lines, and the exported file is on
    disk. *)
Theorem publish_gated_by_bucket env cfg w r w' evs :
  main env cfg w = (r, w') ->
  trace w' = trace w ++ evs ->
  (publish_attempted evs = true -> AWS_BUCKET_NAME cfg <> "YOUR_BUCKET_NAME")
  /\ (export_succeeded evs = true ->
      (publish_attempted evs = true
       <-> AWS_BUCKET_NAME cfg <> "YOUR_BUCKET_NAME")
      /\ (publish_skipped evs = true
          <-> AWS_BUCKET_NAME cfg = "YOUR_BUCKET_NAME")
      /\ (AWS_BUCKET_NAME cfg = "YOUR_BUCKET_NAME" ->
          publish_attempted evs = false
          /\ r = inr tt
          /\ run_completed evs = true
          /\ s3_objects w' = s3_objects w
          /\ exists rows,
               disk w' !! "tweet_sentiments.csv" = Some (headers :: rows))).
Proof.
  intros Hmain Htrace. run_cases Hmain Htrace.
  1-5: read_events; (split; intros Hx; discriminate Hx).
  fold (exported_events cfg tweets outs summary publish).
  match goal with
  | Hb : summary_block _ _ _, Hp : publish_run _ _ _ _ _ _ |- _ =>
      destruct (exported_events_read cfg tweets outs summary publish _ Hb)
        as (_ & Hdone & -> & _ & ->);
      destruct (publish_run_read _ _ _ _ _ _ Hp)
        as [(Hbucket & -> & -> & _ & ->) | (Hbucket & -> & -> & _)]
  end.
  - split; [intros Hx; discriminate Hx|]. intros _.
    split; [split; [intros Hx; discriminate Hx | congruence]|].
    split; [split; done|]. intros _. cbn [disk s3_objects].
    repeat split; try done.
    exists (map (dict_to_list headers) (map fst outs)).
    apply lookup_insert_eq.
  - split; [done|]. intros _.
    split; [split; done|].
    split; [split; [intros Hx; discriminate Hx | congruence]|]. congruence.
Qed.

Lemma publish_gated_by_bucket_witness :
  let run := main (sample_env two_tweets None None) default_config
               empty_world in
  publish_attempted (trace (snd run)) = false
  /\ fst run = inr tt
  /\ run_completed (trace (snd run)) = true
  /\ s3_objects (snd run) = s3_objects empty_world
  /\ exists rows,
       disk (snd run) !! "tweet_sentiments.csv" = Some (headers :: rows).
Proof.
  intros run.
  pose proof (publish_gated_by_bucket (sample_env two_tweets None None)
                default_config empty_world (fst run) (snd run)
                (trace (snd run)) (surjective_pairing run) eq_refl) as H.
  apply (proj2 H).
  - vm_compute. reflexivity.
  - reflexivity.
Defined.

(** C6. In every run in which the publish step is attempted and the object
    store refuses (creating the client or uploading raises), the exception
    is caught inside [upload_to_s3]: the error line is printed, the closing
    lines follow, [main] returns normally, the exported file is on disk and
    the object store is unchanged. [upload_to_s3] itself never raises. *)
Theorem publish_failure_not_fatal env cfg w r w' evs e :
  main env cfg w = (r, w') ->
  trace w' = trace w ++ evs ->
  publish_attempted evs = true ->
  boto3_client env = Some e
  \/ upload_fault env "tweet_sentiments.csv" (AWS_BUCKET_NAME cfg)
       (object_key env "tweet_sentiments.csv") = Some e ->
  r = inr tt
  /\ publish_failed evs = true
  /\ run_completed evs = true
  /\ export_succeeded evs = true
  /\ (exists before e',
        evs = before ++ [Printed (MsgUploadError e'); Printed MsgCredentialsHint]
              ++ closing)
  /\ s3_objects w' = s3_objects w
  /\ (exists rows, disk w' !! "tweet_sentiments.csv" = Some (headers :: rows))
  /\ (forall filename bucket w0,
        exists ok w1, upload_to_s3 env filename bucket w0 = (inr ok, w1)).
Proof.
  intros Hmain Htrace Hattempt Hfault. run_cases Hmain Htrace.
  1-5: read_events; discriminate Hattempt.
  fold (exported_events cfg tweets outs summary publish) in *.
  match goal with
  | Hb : summary_block _ _ _, Hp : publish_run _ _ _ _ _ _ |- _ =>
      destruct (exported_events_read cfg tweets outs summary publish _ Hb)
        as (Hsaved & Hdone & Hatt & Hfail & _);
      destruct (publish_run_read _ _ _ _ _ _ Hp)
        as [(_ & Hno & _) | (_ & _ & _ & [(Hf & -> & before & e' & ->)
                                         | (_ & Hb1 & Hu1)])]
  end.
  - rewrite Hatt, Hno in Hattempt. discriminate Hattempt.
  - rewrite Hfail, Hf, Hdone, Hsaved. cbn [disk s3_objects].
    repeat split; try done.
    + exists (opening cfg ++ querying cfg ++ assembling tweets outs
              ++ [Printed MsgStep4; Call (CallOpen "tweet_sentiments.csv");
                  Printed (MsgSaved "tweet_sentiments.csv")]
              ++ summary ++ [Printed MsgStep5] ++ before), e'.
      unfold exported_events. by rewrite <- !app_assoc.
    + exists (map (dict_to_list headers) (map fst outs)).
      apply lookup_insert_eq.
    + intros. apply upload_to_s3_returns.
  - destruct Hfault; congruence.
Qed.

Lemma publish_failure_not_fatal_witness :
  let run := main (sample_env two_tweets None (Some (Exception "denied")))
               configured empty_world in
  fst run = inr tt
  /\ publish_failed (trace (snd run)) = true
  /\ run_completed (trace (snd run)) = true
  /\ export_succeeded (trace (snd run)) = true.
Proof.
  intros run.
  pose proof (publish_failure_not_fatal
                (sample_env two_tweets None (Some (Exception "denied")))
                configured empty_world (fst run) (snd run) (trace (snd run))
                (Exception "denied") (surjective_pairing run) eq_refl) as H.
  destruct H as (H1 & H2 & H3 & H4 & _).
  - vm_compute. reflexivity.
  - right. reflexivity.
  - exact (conj H1 (conj H2 (conj H3 H4))).
Defined.

(** * Further properties *)

(** ** Connecting and fetching *)

(** X1. When creating the Twitter client raises, [authenticate_twitter]
    catches the exception and returns [None], and [main] returns normally
    right after the error line: no search is made, no file is opened, the
    disk and the object store are untouched. *)
Theorem connection_failure_halts env cfg w e :
  tweepy_Client env (BEARER_TOKEN cfg) = inl e ->
  (exists w1, authenticate_twitter env cfg w = (inr None, w1))
  /\ main env cfg w
     = (inr tt, log (opening cfg ++ [Printed (MsgConnectError e)]) w)
  /\ search_called (opening cfg ++ [Printed (MsgConnectError e)]) = false
  /\ export_attempted (opening cfg ++ [Printed (MsgConnectError e)]) = false.
Proof.
  intros He. split; [|split; [|split; reflexivity]].
  - eexists. by apply authenticate_twitter_failed.
  - destruct (main_runs env cfg w) as (r & w' & E & Hrun).
    destruct Hrun; congruence.
Qed.

Lemma connection_failure_halts_witness :
  main offline_env default_config empty_world
  = (inr tt,
     log (opening default_config
          ++ [Printed (MsgConnectError (Exception "no network"))])
       empty_world).
Proof.
  apply (proj1 (proj2 (connection_failure_halts offline_env default_config
                         empty_world (Exception "no network") eq_refl))).
Defined.

(** X2. [fetch_tweets] never raises. It makes exactly one search call, with
    the keyword followed by " lang:en -is:retweet" and the requested count;
    it returns a non-empty list only when the provider answered with that
    very list, and the empty list when the provider raised or sent nothing. *)
Theorem fetch_tweets_total env c keyword count w :
  exists l w' line,
    fetch_tweets env c keyword count w = (inr l, w')
    /\ w' = log [Call (CallSearch (keyword +:+ " lang:en -is:retweet") count);
                 Printed line] w
    /\ (l <> [] ->
        search_recent_tweets env c (keyword +:+ " lang:en -is:retweet") count
        = inr {| data := Some l |})
    /\ (forall e,
          search_recent_tweets env c (keyword +:+ " lang:en -is:retweet") count
          = inl e ->
          l = [] /\ line = MsgFetchError e).
Proof.
  destruct (search_recent_tweets env c (keyword +:+ " lang:en -is:retweet")
              count) as [e|resp] eqn:Hs.
  - eexists _, _, _. split; [by apply fetch_tweets_failed|].
    split; [reflexivity|]. split; [done|]. intros e' [= <-]. done.
  - destruct (truthy_data (data resp)) eqn:Hd.
    + destruct resp as [[tweets|]]; [|discriminate Hd].
      assert (Hne : tweets <> []) by (by destruct tweets).
      eexists _, _, _.
      split; [by eapply (fetch_tweets_some _ _ _ _ _ tweets)|].
      split; [reflexivity|]. split; [done|]. intros e' He'. discriminate He'.
    + eexists _, _, _. split; [by eapply fetch_tweets_empty|].
      split; [reflexivity|]. split; [done|]. intros e' He'. discriminate He'.
Qed.

(** X3. When the search raises, [fetch_tweets] reports it and [main] returns
    normally right after: no file is opened, nothing is printed past the
    error line, the disk and the object store are untouched. *)
Theorem search_failure_halts env cfg w c e :
  tweepy_Client env (BEARER_TOKEN cfg) = inr c ->
  search_recent_tweets env c (search_query cfg) (TWEET_COUNT cfg) = inl e ->
  main env cfg w
  = (inr tt,
     log (opening cfg ++ querying cfg ++ [Printed (MsgFetchError e)]) w)
  /\ export_attempted
       (opening cfg ++ querying cfg ++ [Printed (MsgFetchError e)]) = false.
Proof.
  intros Hc Hs. split; [|reflexivity].
  destruct (main_runs env cfg w) as (r & w' & E & Hrun).
  destruct Hrun; congruence.
Qed.

Lemma search_failure_halts_witness :
  main (sample_env (inl (Exception "rate limit")) None None) default_config
    empty_world
  = (inr tt,
     log (opening default_config ++ querying default_config
          ++ [Printed (MsgFetchError (Exception "rate limit"))]) empty_world).
Proof.
  apply (proj1 (search_failure_halts
                  (sample_env (inl (Exception "rate limit")) None None)
                  default_config empty_world
                  {| bearer_token := "YOUR_BEARER_TOKEN" |}
                  (Exception "rate limit") eq_refl eq_refl)).
Defined.

(** ** Writing the file, in full *)

(** X4. [save_to_csv] never raises: it returns [True] exactly when opening
    the file, every write and the flush on closing all go through, and
    [False] otherwise, printing the error instead of the confirmation. It
    touches no file but the one named and nothing in the object store, and
    when the file cannot be opened the disk is as before. What a failed
    write leaves in the file is not determined. *)
Theorem save_to_csv_outcome env results filename w :
  exists ok msg w',
    save_to_csv env results filename w = (inr ok, w')
    /\ (ok = true <->
        open_fault env filename = None
        /\ forall j, j <= S (length results) ->
                     write_fault env filename j = None)
    /\ trace w' = trace w ++ [Call (CallOpen filename); Printed msg]
    /\ (if ok then msg = MsgSaved filename
        else exists e, msg = MsgSaveError e)
    /\ (forall other, other <> filename -> disk w' !! other = disk w !! other)
    /\ s3_objects w' = s3_objects w
    /\ (open_fault env filename <> None -> disk w' = disk w).
Proof.
  destruct (save_to_csv_run env results filename w)
    as [(Ho & Hall & E)
       | [(e & Ho & E) | (e & k & Ho & Hk & Hke & Hbefore & E)]].
  - exists true, (MsgSaved filename). eexists. split; [exact E|].
    cbn [trace disk s3_objects]. repeat split; try done.
    + intros other Hne. by apply lookup_insert_ne.
  - exists false, (MsgSaveError e). eexists. split; [exact E|].
    cbn [log trace disk s3_objects]. repeat split; try done.
    + intros [Hopen _]. congruence.
    + by exists e.
  - exists false, (MsgSaveError e). eexists. split; [exact E|].
    cbn [trace disk s3_objects]. repeat split; try done.
    + intros [_ Hall]. rewrite (Hall k Hk) in Hke. discriminate Hke.
    + by exists e.
    + intros other Hne. by apply lookup_insert_ne.
Qed.

Lemma save_to_csv_outcome_witness :
  exists ok msg w',
    save_to_csv (scorer_env (fun _ => 0%Q)
                   (fun n => if Nat.eqb n 3 then Some (Exception "disk full")
                             else None))
      [sample_record; sample_record] "tweet_sentiments.csv"
      {| trace := [];
         disk := <["tweet_sentiments.csv" := [["old"]]]> ∅;
         s3_objects := ∅ |}
    = (inr ok, w')
    /\ ok = false
    /\ (exists e, msg = MsgSaveError e)
    /\ trace w' = [Call (CallOpen "tweet_sentiments.csv"); Printed msg]
    /\ disk w' !! "other.csv" = None.
Proof.
  destruct (save_to_csv_outcome
              (scorer_env (fun _ => 0%Q)
                 (fun n => if Nat.eqb n 3 then Some (Exception "disk full")
                           else None))
              [sample_record; sample_record] "tweet_sentiments.csv"
              {| trace := [];
                 disk := <["tweet_sentiments.csv" := [["old"]]]> ∅;
                 s3_objects := ∅ |})
    as (ok & msg & w' & E & Hok & Htrace & Hmsg & Hother & _).
  exists ok, msg, w'. split; [exact E|].
  destruct ok.
  { destruct (proj1 Hok eq_refl) as [_ Hall].
    specialize (Hall 3 ltac:(cbn [length]; lia)). discriminate Hall. }
  split; [reflexivity|]. split; [exact Hmsg|]. split; [exact Htrace|].
  rewrite Hother by (intros H; discriminate H).
  cbn [disk]. rewrite lookup_insert_ne by (intros H; discriminate H).
  apply lookup_empty.
Defined.



(** X6. The exported rows determine the records' identifier, text, label
    and both counters: two record sequences that export to the same file
    have the same length and agree, record by record, on these columns. *)
Theorem exported_columns_injective (rs1 rs2 : list TweetData) :
  csv_of rs1 = csv_of rs2 ->
  Forall2 (fun a b =>
             tweet_id a = tweet_id b
             /\ text a = text b
             /\ sentiment a = sentiment b
             /\ retweet_count a = retweet_count b
             /\ like_count a = like_count b)
    rs1 rs2.
Proof.
  unfold csv_of. intros [= E]. revert rs2 E.
  induction rs1 as [|a rs1 IH]; intros [|b rs2] E; try discriminate E.
  - constructor.
  - cbn [map] in E. injection E as Eid Etext _ Elabel _ Erc Elc Erest.
    constructor; [|by apply IH].
    unfold str_int in Eid, Erc, Elc.
    apply (inj pretty) in Eid, Erc, Elc. done.
Qed.

Lemma exported_columns_injective_witness :
  Forall2 (fun a b =>
             tweet_id a = tweet_id b
             /\ text a = text b
             /\ sentiment a = sentiment b
             /\ retweet_count a = retweet_count b
             /\ like_count a = like_count b)
    [sample_record] [sample_record].
Proof.
  apply (exported_columns_injective [sample_record] [sample_record]).
  reflexivity.
Defined.

(** ** The summary, in full *)

Lemma count_loop_counts results :
  forall a b c total,
    Forall (fun r => In (sentiment r) ["positive"; "negative"; "neutral"])
      results ->
    count_loop results [("positive", a); ("negative", b); ("neutral", c)] total
    = inr ([("positive", a + count_label "positive" results);
            ("negative", b + count_label "negative" results);
            ("neutral", c + count_label "neutral" results)],
           fold_left (fun acc r => (acc + polarity_score r)%Q) results total).
Proof.
  unfold count_label.
  induction results as [|r rs IH]; intros a b c total Hall.
  - cbn [count_loop List.filter length fold_left]. by rewrite !Nat.add_0_r.
  - inversion Hall as [|? ? Hr Hrs]; subst.
    cbn [count_loop List.filter fold_left].
    destruct Hr as [E|[E|[E|[]]]]; rewrite <- E;
      cbn [dict_incr String.eqb Ascii.eqb Bool.eqb length];
      rewrite IH by done; rewrite ?Nat.add_succ_r; reflexivity.
Qed.

Lemma count_label_total results :
  Forall (fun r => In (sentiment r) ["positive"; "negative"; "neutral"])
    results ->
  count_label "positive" results + count_label "negative" results
  + count_label "neutral" results = length results.
Proof.
  unfold count_label. induction 1 as [|r rs Hr _ IH]; [reflexivity|].
  cbn [List.filter length].
  destruct Hr as [E|[E|[E|[]]]]; rewrite <- E;
    cbn [String.eqb Ascii.eqb Bool.eqb length]; lia.
Qed.

Lemma count_label_le label results : count_label label results <= length results.
Proof. unfold count_label. apply filter_length_le. Qed.

Lemma generate_summary_explicit cfg results w :
  results <> [] ->
  Forall (fun r => In (sentiment r) ["positive"; "negative"; "neutral"])
    results ->
  generate_summary cfg results w = (inr tt, log (summary_events cfg results) w).
Proof.
  intros Hne Hall. destruct results as [|r rs]; [done|].
  unfold generate_summary, summary_events, distribution_event, sum_scores.
  cbn [truthy_list negb].
  rewrite bind_eq, (count_loop_counts (r :: rs) 0 0 0 0%Q Hall).
  unfold lift at 1, ret at 1. cbn [length Nat.add]. run.
  cbn [for_each]. unfold distribution_line. run.
  repeat (progress (rewrite ?truediv_nat_succ, ?truediv_five; run)).
  reflexivity.
Qed.

Lemma inject_nat_succ_pos (n : nat) : (0 < inject_Z (Z.of_nat (S n)))%Q.
Proof.
  change 0%Q with (inject_Z 0). rewrite <- Zlt_Qlt. lia.
Qed.

Lemma ratio_bounds (c n : nat) :
  c <= S n ->
  (0 <= inject_Z (Z.of_nat c) / inject_Z (Z.of_nat (S n)) <= 1)%Q.
Proof.
  intros Hc. pose proof (inject_nat_succ_pos n) as Hpos. split.
  - apply Qle_shift_div_l; [done|]. rewrite Qmult_0_l.
    change 0%Q with (inject_Z 0). rewrite <- Zle_Qle. lia.
  - apply Qle_shift_div_r; [done|]. rewrite Qmult_1_l.
    rewrite <- Zle_Qle. lia.
Qed.

Lemma bar_bounds (p : Q) :
  (0 <= p <= 100)%Q -> Z.to_nat (int_of (p / 5)) <= 20.
Proof.
  intros [Hlo Hhi]. unfold int_of.
  assert (H5 : (0 <= p / 5 <= 20)%Q).
  { unfold Qdiv. change (/ 5)%Q with (1 # 5)%Q. lra. }
  destruct (Qltb (p / 5) 0) eqn:Hneg.
  { apply Qltb_lt in Hneg. lra. }
  pose proof (Qfloor_resp_le _ _ (proj2 H5)) as Hf.
  change (Qfloor 20) with 20%Z in Hf. lia.
Qed.

(** X7. For a non-empty sequence of records labelled positive, negative or
    neutral, [generate_summary] returns normally after printing the total
    number of records, then one line for each of the three labels, in the
    order positive, negative, neutral, with the number of records carrying
    that label, then the average and one of the three overall labels. The
    three counts add up to the total. *)
Theorem generate_summary_counts cfg results w :
  results <> [] ->
  Forall (fun r => In (sentiment r) ["positive"; "negative"; "neutral"])
    results ->
  exists p1 b1 p2 b2 p3 b3 avg overall,
    generate_summary cfg results w
    = (inr tt,
       log [Printed MsgRule; Printed MsgSummaryTitle; Printed MsgRule;
            Printed (MsgTotal (length results));
            Printed (MsgKeyword (SEARCH_KEYWORD cfg));
            Printed MsgDistributionHeader;
            Printed (MsgDistribution "positive"
                       (count_label "positive" results) p1 b1);
            Printed (MsgDistribution "negative"
                       (count_label "negative" results) p2 b2);
            Printed (MsgDistribution "neutral"
                       (count_label "neutral" results) p3 b3);
            Printed (MsgAverage avg); Printed (MsgOverall overall);
            Printed MsgRule] w)
    /\ count_label "positive" results + count_label "negative" results
       + count_label "neutral" results = length results
    /\ In overall ["POSITIVE"; "NEGATIVE"; "NEUTRAL"].
Proof.
  intros Hne Hall.
  rewrite (generate_summary_explicit cfg results w Hne Hall).
  unfold summary_events, distribution_event.
  do 8 eexists. split; [reflexivity|].
  split; [exact (count_label_total results Hall)|].
  destruct (Qgtb _ _); [by left|].
  destruct (Qltb _ _); [right; by left | right; right; by left].
Qed.

Lemma generate_summary_counts_witness :
  exists p1 b1 p2 b2 p3 b3 avg overall,
    generate_summary default_config [sample_record; sample_record] empty_world
    = (inr tt,
       log [Printed MsgRule; Printed MsgSummaryTitle; Printed MsgRule;
            Printed (MsgTotal 2);
            Printed (MsgKeyword (SEARCH_KEYWORD default_config));
            Printed MsgDistributionHeader;
            Printed (MsgDistribution "positive" 0 p1 b1);
            Printed (MsgDistribution "negative" 2 p2 b2);
            Printed (MsgDistribution "neutral" 0 p3 b3);
            Printed (MsgAverage avg); Printed (MsgOverall overall);
            Printed MsgRule] empty_world)
    /\ 0 + 2 + 0 = 2
    /\ In overall ["POSITIVE"; "NEGATIVE"; "NEUTRAL"].
Proof.
  apply (generate_summary_counts default_config
           [sample_record; sample_record] empty_world).
  - intros E. discriminate E.
  - constructor; [right; left; reflexivity|].
    constructor; [right; left; reflexivity|]. constructor.
Defined.

Lemma count_loop_unknown pre r post :
  forall a b c total,
    Forall (fun r => In (sentiment r) ["positive"; "negative"; "neutral"]) pre ->
    ~ In (sentiment r) ["positive"; "negative"; "neutral"] ->
    count_loop (pre ++ r :: post)
      [("positive", a); ("negative", b); ("neutral", c)] total
    = inl (KeyError (sentiment r)).
Proof.
  induction pre as [|r0 pre IH]; intros a b c total Hall Hr.
  - cbn [app count_loop dict_incr].
    destruct (String.eqb_spec "positive" (sentiment r)) as [E|_];
      [destruct Hr; by left|].
    destruct (String.eqb_spec "negative" (sentiment r)) as [E|_];
      [destruct Hr; right; by left|].
    destruct (String.eqb_spec "neutral" (sentiment r)) as [E|_];
      [destruct Hr; right; right; by left|].
    reflexivity.
  - inversion Hall as [|? ? Hr0 Hpre]; subst. cbn [app count_loop].
    destruct Hr0 as [E|[E|[E|[]]]]; rewrite <- E;
      cbn [dict_incr String.eqb Ascii.eqb Bool.eqb]; by apply IH.
Qed.

(** X9. If some record carries a label other than positive, negative or
    neutral, [generate_summary] raises [KeyError] on the first such label
    while counting, before anything is printed. *)
Theorem summary_unknown_label cfg pre r post w :
  Forall (fun r => In (sentiment r) ["positive"; "negative"; "neutral"]) pre ->
  ~ In (sentiment r) ["positive"; "negative"; "neutral"] ->
  generate_summary cfg (pre ++ r :: post) w = (inl (KeyError (sentiment r)), w).
Proof.
  intros Hpre Hr. apply generate_summary_raised.
  - by destruct pre.
  - by apply count_loop_unknown.
Qed.

Lemma summary_unknown_label_witness :
  generate_summary default_config
    ([sample_record]
     ++ {| tweet_id := 1; text := "x"; created_at := None;
           sentiment := "mixed"; polarity_score := 0;
           polarity_signbit := false;
           retweet_count := 0; like_count := 0 |} :: [sample_record])
    empty_world
  = (inl (KeyError "mixed"), empty_world).
Proof.
  apply (summary_unknown_label default_config [sample_record]
           {| tweet_id := 1; text := "x"; created_at := None;
              sentiment := "mixed"; polarity_score := 0;
           polarity_signbit := false;
              retweet_count := 0; like_count := 0 |}
           [sample_record] empty_world).
  - constructor; [right; left; reflexivity | constructor].
  - cbn [sentiment]. intros [E|[E|[E|[]]]]; discriminate E.
Defined.

(** X10. In the distribution printed by [generate_summary], every count is
    at most the total, every percentage lies between 0 and 100, and every
    bar is at most 20 blocks long. *)
Theorem distribution_bounds cfg results w :
  results <> [] ->
  Forall (fun r => In (sentiment r) ["positive"; "negative"; "neutral"])
    results ->
  exists evs,
    generate_summary cfg results w = (inr tt, log evs w)
    /\ forall label count percentage bar,
         In (Printed (MsgDistribution label count percentage bar)) evs ->
         count <= length results
         /\ (0 <= percentage <= 100)%Q
         /\ bar <= 20.
Proof.
  intros Hne Hall. exists (summary_events cfg results).
  split; [by apply generate_summary_explicit|].
  assert (Hline : forall key label count percentage bar,
            distribution_event (length results) key
              (count_label key results)
            = Printed (MsgDistribution label count percentage bar) ->
            count <= length results
            /\ (0 <= percentage <= 100)%Q /\ bar <= 20).
  { intros key label count percentage bar. unfold distribution_event.
    intros [= _ <- <- <-]. clear label. rename key into label.
    pose proof (count_label_le label results) as Hle.
    destruct results as [|r rs]; [done|]. cbn [length] in *.
    pose proof (ratio_bounds _ _ Hle) as [Hlo Hhi].
    set (ratio := (inject_Z (Z.of_nat (count_label label (r :: rs)))
                   / inject_Z (Z.of_nat (S (length rs))))%Q) in *.
    assert (Hp : (0 <= ratio * 100 <= 100)%Q) by (split; lra).
    split; [done|]. split; [done|]. by apply bar_bounds. }
  intros label count percentage bar Hin. unfold summary_events in Hin.
  cbn [In] in Hin.
  repeat match type of Hin with
         | _ \/ _ => destruct Hin as [Hin|Hin]
         end;
    first [discriminate Hin | exact (Hline _ _ _ _ _ Hin) | destruct Hin].
Qed.

Lemma distribution_bounds_witness :
  exists evs,
    generate_summary default_config [sample_record] empty_world
    = (inr tt, log evs empty_world)
    /\ forall label count percentage bar,
         In (Printed (MsgDistribution label count percentage bar)) evs ->
         count <= length [sample_record]
         /\ (0 <= percentage <= 100)%Q
         /\ bar <= 20.
Proof.
  apply (distribution_bounds default_config [sample_record] empty_world).
  - intros E. discriminate E.
  - constructor; [right; left; reflexivity | constructor].
Defined.

(** ** Publishing, in full *)

(** X11. [upload_to_s3] never raises. It returns [True] exactly when the
    client is created, the local file exists and the transfer succeeds; the
    object stored under "sentiment_analysis/<timestamp>_<filename>" is then
    the content of the local file, and the disk is unchanged. Otherwise it
    returns [False], prints the exception that was raised, and leaves both
    the disk and the object store as they were. *)
Theorem upload_to_s3_outcome env filename bucket w :
  let key := object_key env filename in
  (exists content,
     boto3_client env = None
     /\ disk w !! filename = Some content
     /\ upload_fault env filename bucket key = None
     /\ upload_to_s3 env filename bucket w
        = (inr true,
           {| trace := trace w ++ [Call CallBoto3Client;
                                   Call (CallUpload filename bucket key);
                                   Printed (MsgUploaded bucket key)];
              disk := disk w;
              s3_objects := <[(bucket, key) := content]> (s3_objects w) |}))
  \/ (exists e calls,
        (boto3_client env = Some e
         \/ (boto3_client env = None /\ disk w !! filename = None
             /\ e = FileNotFoundError filename)
         \/ (boto3_client env = None /\ is_Some (disk w !! filename)
             /\ upload_fault env filename bucket key = Some e))
        /\ upload_to_s3 env filename bucket w
           = (inr false,
              log (calls ++ [Printed (MsgUploadError e);
                             Printed MsgCredentialsHint]) w)).
Proof.
  intros key. unfold upload_to_s3, boto3_client_s3, s3_upload_file.
  change ("sentiment_analysis/" +:+ strftime_compact (datetime_now env)
          +:+ "_" +:+ filename) with key. clearbody key.
  unfold bind, try_except, print, emit, ret, raise, get_world, set_s3.
  destruct (boto3_client env) as [e|].
  { right. exists e, [Call CallBoto3Client]. split; [by left|]. same_world. }
  cbn [log trace disk s3_objects].
  destruct (disk w !! filename) as [content|] eqn:Hfile.
  - destruct (upload_fault env filename bucket key) as [e|] eqn:Hu.
    + right.
      exists e, [Call CallBoto3Client; Call (CallUpload filename bucket key)].
      split; [right; right; by eauto|]. same_world.
    + left. exists content. repeat split; try done. same_world.
  - right.
    exists (FileNotFoundError filename),
      [Call CallBoto3Client; Call (CallUpload filename bucket key)].
    split; [right; left; done|]. same_world.
Qed.

Lemma upload_to_s3_outcome_witness :
  upload_to_s3 (sample_env two_tweets None None) "tweet_sentiments.csv"
    "reports" empty_world
  = (inr false,
     log [Call CallBoto3Client;
          Call (CallUpload "tweet_sentiments.csv" "reports"
                  (object_key (sample_env two_tweets None None)
                     "tweet_sentiments.csv"));
          Printed (MsgUploadError (FileNotFoundError "tweet_sentiments.csv"));
          Printed MsgCredentialsHint] empty_world).
Proof.
  destruct (upload_to_s3_outcome (sample_env two_tweets None None)
              "tweet_sentiments.csv" "reports" empty_world)
    as [(content & _ & Hfile & _) | (e & calls & _ & E)].
  - discriminate Hfile.
  - vm_compute. reflexivity.
Defined.

(** X12. In every run that reports a successful upload, the object stored
    under the configured bucket and the timestamped key is exactly the file
    left on disk, no other object has changed, and [main] returns
    normally. *)
Theorem published_object_is_export env cfg w r w' evs :
  main env cfg w = (r, w') ->
  trace w' = trace w ++ evs ->
  publish_succeeded evs = true ->
  r = inr tt
  /\ (exists content,
        disk w' !! "tweet_sentiments.csv" = Some content
        /\ s3_objects w' !! (AWS_BUCKET_NAME cfg,
                             object_key env "tweet_sentiments.csv")
           = Some content)
  /\ (forall k,
        k <> (AWS_BUCKET_NAME cfg, object_key env "tweet_sentiments.csv") ->
        s3_objects w' !! k = s3_objects w !! k).
Proof.
  intros Hmain Htrace Hpub. unfold publish_succeeded in Hpub.
  run_cases Hmain Htrace.
  1-5: read_events; discriminate Hpub.
  match goal with
  | Hb : summary_block _ _ _, Hp : publish_run _ _ _ _ _ _ |- _ =>
      destruct Hb as (dist & avg & overall & -> & Hdist);
      destruct Hp as [Heq | calls e Hne Hcalls | key Hne -> Hb Hu]
  end.
  - read_events. discriminate Hpub.
  - read_events. discriminate Hpub.
  - cbn [disk s3_objects]. split; [done|]. split.
    + exists (csv_of (map fst outs)). by rewrite !lookup_insert_eq.
    + intros k Hk. by rewrite lookup_insert_ne.
Qed.

Lemma published_object_is_export_witness :
  let run := main (sample_env two_tweets None None) configured empty_world in
  fst run = inr tt
  /\ exists content,
       disk (snd run) !! "tweet_sentiments.csv" = Some content
       /\ s3_objects (snd run)
            !! ("reports",
                object_key (sample_env two_tweets None None)
                  "tweet_sentiments.csv")
          = Some content.
Proof.
  intros run.
  destruct (published_object_is_export (sample_env two_tweets None None)
              configured empty_world (fst run) (snd run) (trace (snd run))
              (surjective_pairing run) eq_refl) as (H1 & H2 & _).
  - vm_compute. reflexivity.
  - exact (conj H1 H2).
Defined.

(** ** What [main] lets escape *)

(** X13. No failure of the Twitter client, the search, the file system or the
    object store leaves [main]: each is caught and [main] returns normally.
    Printing being taken to succeed, the only exception that leaves [main]
    is a [KeyError] raised while the records are assembled; when that
    happens no file has been opened and the disk and the object store are as
    before. *)
Theorem only_key_error_escapes env cfg w r w' evs :
  main env cfg w = (r, w') ->
  trace w' = trace w ++ evs ->
  r = inr tt
  \/ (exists key,
        r = inl (KeyError key)
        /\ assembly_reached evs = true
        /\ export_attempted evs = false
        /\ disk w' = disk w
        /\ s3_objects w' = s3_objects w).
Proof.
  intros Hmain Htrace. run_cases Hmain Htrace; try (by left).
  right. exists key. read_events. repeat split.
Qed.

Lemma only_key_error_escapes_witness :
  let run := main (sample_env
                     (inr {| data := Some [sample_tweet; partial_tweet] |})
                     None None)
               default_config empty_world in
  fst run = inl (KeyError "retweet_count")
  /\ disk (snd run) = disk empty_world.
Proof.
  intros run.
  destruct (only_key_error_escapes
              (sample_env
                 (inr {| data := Some [sample_tweet; partial_tweet] |})
                 None None)
              default_config empty_world (fst run) (snd run)
              (trace (snd run)) (surjective_pairing run) eq_refl)
    as [Hok | (key & Hr & _ & _ & Hdisk & _)].
  - assert (E : fst run = inl (KeyError "retweet_count"))
      by (vm_compute; reflexivity).
    rewrite E in Hok. discriminate Hok.
  - split; [|exact Hdisk]. vm_compute. reflexivity.
Defined.

(** ** Labels, stored scores and cleaned text *)

Lemma round_half_even_small (x : Q) :
  (- (1 # 2) < x < 1 # 2)%Q -> round_half_even x = 0%Z.
Proof.
  intros [Hlo Hhi]. pose proof (round_half_even_near x) as Hnear.
  apply Qabs_Qle_condition in Hnear as [H1 H2].
  set (k := round_half_even x) in *.
  assert (Hk1 : (inject_Z (-1) < inject_Z k)%Q)
    by (change (inject_Z (-1)) with (-1)%Q; lra).
  assert (Hk2 : (inject_Z k < inject_Z 1)%Q)
    by (change (inject_Z 1) with 1%Q; lra).
  rewrite <- Zlt_Qlt in Hk1, Hk2. lia.
Qed.

(** X14. The label comes from the unrounded polarity and the stored score
    from the rounded one, so they can disagree: a post whose polarity is
    positive but below 0.0005 is labelled positive and exported with score
    [0.0], and a post whose polarity is negative but above -0.0005 is
    labelled negative and exported with score [-0.0], the rounded float
    keeping its sign. *)
Theorem faint_polarity_label_and_score env tweet r sp :
  tweet_row env tweet = inr (r, sp) ->
  let p := textblob_polarity env (text r) in
  ((0 < p < 1 # 2000)%Q ->
   sentiment r = "positive"
   /\ str_float (polarity_signbit r) (polarity_score r) = "0.0")
  /\ ((- (1 # 2000) < p < 0)%Q ->
      sentiment r = "negative"
      /\ str_float (polarity_signbit r) (polarity_score r) = "-0.0").
Proof.
  intros Hrow p.
  destruct (tweet_row_assembled _ _ _ _ Hrow)
    as ((_ & _ & _ & Hlabel & Hscore & _) & _).
  pose proof (tweet_row_signbit _ _ _ _ Hrow) as Hsign.
  fold p in Hscore, Hsign. rewrite Hlabel, Hscore, Hsign.
  unfold analyze_sentiment, Qgtb. fold p. cbn [fst]. unfold round3.
  split; intros [Hlo Hhi].
  - rewrite round_half_even_small by (split; lra).
    rewrite (proj2 (Qltb_lt 0 p) Hlo).
    rewrite (proj2 (Qltb_ge p 0)) by lra.
    assert (Qeq_bool p 0 = false) as ->; [|split; reflexivity].
    apply not_true_is_false. intros E%Qeq_bool_iff. lra.
  - rewrite round_half_even_small by (split; lra).
    rewrite (proj2 (Qltb_ge 0 p)) by lra.
    rewrite (proj2 (Qltb_lt p 0) Hhi). split; reflexivity.
Qed.

Lemma faint_polarity_label_and_score_witness :
  (exists r sp,
      tweet_row (scorer_env (fun _ => (1 # 4000)%Q) (fun _ => None))
        bare_tweet
      = inr (r, sp)
      /\ sentiment r = "positive"
      /\ str_float (polarity_signbit r) (polarity_score r) = "0.0")
  /\ (exists r sp,
        tweet_row (scorer_env (fun _ => (- (1 # 4000))%Q) (fun _ => None))
          bare_tweet
        = inr (r, sp)
        /\ sentiment r = "negative"
        /\ str_float (polarity_signbit r) (polarity_score r) = "-0.0").
Proof.
  split.
  - eexists _, _. split; [reflexivity|].
    apply (proj1 (faint_polarity_label_and_score
                    (scorer_env (fun _ => (1 # 4000)%Q) (fun _ => None))
                    bare_tweet _ _ eq_refl)).
    split; reflexivity.
  - eexists _, _. split; [reflexivity|].
    apply (proj2 (faint_polarity_label_and_score
                    (scorer_env (fun _ => (- (1 # 4000))%Q) (fun _ => None))
                    bare_tweet _ _ eq_refl)).
    split; reflexivity.
Defined.

Lemma replace_length (old new : ascii) (s : string) :
  String.length (replace old new s) = String.length s.
Proof. induction s as [|c s IH]; simpl; [done|]. by rewrite IH. Qed.

Lemma replace_absent (old new : ascii) (s : string) :
  Forall (fun c => c <> old) (chars s) -> replace old new s = s.
Proof.
  induction s as [|c s IH]; simpl; [done|]. intros Hall.
  inversion Hall as [|? ? Hc Hs]; subst. rewrite (IH Hs).
  by destruct (Ascii.eqb_spec c old).
Qed.

(** X15. Cleaning changes nothing but line breaks: the stored text has the
    length of the raw text, and a raw text without LF or CR is stored
    unchanged. *)
Theorem clean_text_conservative env tweet r sp :
  tweet_row env tweet = inr (r, sp) ->
  String.length (text r) = String.length (Tweet.text tweet)
  /\ (no_linebreak (Tweet.text tweet) -> text r = Tweet.text tweet).
Proof.
  intros Hrow.
  destruct (tweet_row_assembled _ _ _ _ Hrow) as ((_ & -> & _) & _).
  split; [by rewrite !replace_length|].
  intros Hplain. rewrite (replace_absent LF).
  - apply replace_absent. eapply Forall_impl; [exact Hplain|].
    intros c Hc ->. apply Hc. by right.
  - eapply Forall_impl; [exact Hplain|].
    intros c Hc ->. apply Hc. by left.
Qed.

Lemma clean_text_conservative_witness :
  exists r sp,
    tweet_row (sample_env two_tweets None None) bare_tweet = inr (r, sp)
    /\ String.length (text r) = String.length (Tweet.text bare_tweet)
    /\ (no_linebreak (Tweet.text bare_tweet) -> text r = Tweet.text bare_tweet).
Proof.
  eexists _, _. split; [reflexivity|].
  apply (clean_text_conservative (sample_env two_tweets None None)
           bare_tweet _ _ eq_refl).
Defined.

(** ** The calls of a run *)

Lemma calls_of_app (a b : list Event) :
  calls_of (a ++ b) = calls_of a ++ calls_of b.
Proof.
  induction a as [|[m|c] a IH]; cbn [app calls_of]; [done | done |].
  by rewrite IH.
Qed.

Lemma calls_of_tweet_msgs i outs : calls_of (tweet_msgs i outs) = [].
Proof.
  revert i. induction outs as [|[r [label p]] outs IH]; intros i; [done|].
  cbn [tweet_msgs calls_of]. apply IH.
Qed.

Lemma calls_of_summary cfg n evs : summary_block cfg n evs -> calls_of evs = [].
Proof.
  intros (dist & avg & overall & -> & Hdist).
  cbn [app calls_of]. rewrite calls_of_app. cbn [calls_of].
  rewrite app_nil_r.
  induction Hdist as [|e dist (l & c & p & b & ->) _ IH]; [done|].
  cbn [calls_of]. exact IH.
Qed.

Lemma upload_to_s3_calls env filename bucket w :
  exists ok evs store,
    upload_to_s3 env filename bucket w
    = (inr ok, {| trace := trace w ++ evs; disk := disk w;
                  s3_objects := store |})
    /\ (calls_of evs = [CallBoto3Client]
        \/ calls_of evs
           = [CallBoto3Client;
              CallUpload filename bucket (object_key env filename)]).
Proof.
  unfold upload_to_s3, boto3_client_s3, s3_upload_file.
  change ("sentiment_analysis/" +:+ strftime_compact (datetime_now env)
          +:+ "_" +:+ filename) with (object_key env filename).
  generalize (object_key env filename) as key. intros key.
  unfold bind, try_except, print, emit, ret, raise, get_world, set_s3.
  destruct (boto3_client env) as [e|].
  { eexists _, [Call CallBoto3Client; Printed (MsgUploadError e);
                Printed MsgCredentialsHint], _.
    split; [same_world | by left]. }
  cbn [log trace disk s3_objects].
  destruct (disk w !! filename) as [content|];
    [destruct (upload_fault env filename bucket key) as [e|]|].
  - eexists _, [Call CallBoto3Client; Call (CallUpload filename bucket key);
                Printed (MsgUploadError e); Printed MsgCredentialsHint], _.
    split; [same_world | by right].
  - eexists _, [Call CallBoto3Client; Call (CallUpload filename bucket key);
                Printed (MsgUploaded bucket key)], _.
    split; [same_world | by right].
  - eexists _, [Call CallBoto3Client; Call (CallUpload filename bucket key);
                Printed (MsgUploadError (FileNotFoundError filename));
                Printed MsgCredentialsHint], _.
    split; [same_world | by right].
Qed.

Lemma publish_stage_calls env cfg w :
  exists evs store,
    (if negb (String.eqb (AWS_BUCKET_NAME cfg) "YOUR_BUCKET_NAME")
     then upload_to_s3 env "tweet_sentiments.csv" (AWS_BUCKET_NAME cfg)
          >> ret tt
     else print MsgSkipped) w
    = (inr tt, {| trace := trace w ++ evs; disk := disk w;
                  s3_objects := store |})
    /\ (calls_of evs = []
        \/ calls_of evs = [CallBoto3Client]
        \/ calls_of evs
           = [CallBoto3Client;
              CallUpload "tweet_sentiments.csv" (AWS_BUCKET_NAME cfg)
                (object_key env "tweet_sentiments.csv")]).
Proof.
  destruct (negb (String.eqb (AWS_BUCKET_NAME cfg) "YOUR_BUCKET_NAME")).
  - rewrite bind_eq.
    destruct (upload_to_s3_calls env "tweet_sentiments.csv"
                (AWS_BUCKET_NAME cfg) w) as (ok & evs & store & E & Hcalls).
    rewrite E. exists evs, store. split; [reflexivity|]. by right.
  - exists [Printed MsgSkipped], (s3_objects w). split; [reflexivity|].
    by left.
Qed.

(** Finds the events of a computed run and lists its calls. *)
Ltac list_calls :=
  eexists _, _; split;
  [ cbv [log]; cbn [snd trace disk s3_objects];
    repeat (progress (rewrite <- ?app_assoc; cbn [app])); reflexivity
  | cbv [all_calls search_query];
    rewrite ?calls_of_app, ?calls_of_tweet_msgs; cbn [calls_of app];
    rewrite ?calls_of_app, ?calls_of_tweet_msgs; cbn [calls_of app] ].

(** X16. A run makes each outside call at most once and in a fixed order:
    the Twitter client, the search, the opening of the file, the S3 client,
    the upload. The calls of any run are a prefix of that sequence, so
    nothing is retried and no later stage is called before an earlier
    one. *)
Theorem calls_in_order env cfg w :
  exists evs rest,
    trace (snd (main env cfg w)) = trace w ++ evs
    /\ all_calls env cfg = calls_of evs ++ rest.
Proof.
  unfold main. run.
  destruct (tweepy_Client env (BEARER_TOKEN cfg)) as [e|c] eqn:Hc.
  { rewrite (authenticate_twitter_failed _ _ _ _ Hc). run.
    list_calls. reflexivity. }
  rewrite (authenticate_twitter_ok _ _ _ _ Hc). run.
  destruct (search_recent_tweets env c (search_query cfg) (TWEET_COUNT cfg))
    as [e|resp] eqn:Hs.
  { rewrite (fetch_tweets_failed _ _ _ _ _ _ Hs). run.
    list_calls. reflexivity. }
  destruct (truthy_data (data resp)) eqn:Hd.
  2:{ rewrite (fetch_tweets_empty _ _ _ _ _ _ Hs Hd). run.
      list_calls. reflexivity. }
  destruct (data resp) as [tweets|] eqn:Hdata; [|done].
  assert (Hne : tweets <> []) by (by destruct tweets).
  rewrite (fetch_tweets_some _ _ _ _ _ _ _ Hs Hdata Hne). run.
  replace (negb (truthy_list tweets)) with false by (by destruct tweets).
  run. unfold process_tweets.
  destruct (tweets_split env tweets)
    as [[outs Hrows] | (pre & t & post & outs & key & -> & Hpre & Ht)].
  2:{ rewrite (process_loop_raises _ _ _ _ _ _ Hpre Ht). run.
      list_calls. reflexivity. }
  rewrite (process_loop_ok _ _ _ Hrows). run.
  match goal with
  | |- context [save_to_csv env ?rs ?f ?w1] =>
      destruct (save_to_csv_cases env rs f w1) as [E | (e & d & _ & E)];
      rewrite E; clear E
  end.
  2:{ run. list_calls. reflexivity. }
  run.
  destruct (generate_summary_rows env cfg tweets outs Hne Hrows)
    as (summary & Hblock & Hsum).
  rewrite Hsum. run.
  match goal with
  | |- context [(if negb _ then _ else _) ?w1] =>
      destruct (publish_stage_calls env cfg w1)
        as (publish & store & Epub & Hcalls)
  end.
  unfold ret in Epub. rewrite Epub. run.
  destruct Hcalls as [Hp | [Hp | Hp]];
    (list_calls; rewrite calls_of_app, (calls_of_summary _ _ _ Hblock);
     cbn [app calls_of]; rewrite calls_of_app, Hp; cbn [calls_of app];
     reflexivity).
Qed.

(** ** Assembling, piecewise *)

(** X17. Records are assembled post by post, independently of the posts
    around them: if [process_tweets] returns on two sequences, it returns on
    their concatenation, with the two record lists concatenated. *)
Theorem process_tweets_app env a b w ra wa rb wb :
  process_tweets env a w = (inr ra, wa) ->
  process_tweets env b w = (inr rb, wb) ->
  exists w', process_tweets env (a ++ b) w = (inr (ra ++ rb), w').
Proof.
  intros Ha Hb.
  destruct (process_tweets_returned _ _ _ _ _ Ha) as (oa & Hoa & -> & _).
  destruct (process_tweets_returned _ _ _ _ _ Hb) as (ob & Hob & -> & _).
  assert (Hrows : Forall2 (fun t o => tweet_row env t = inr o)
                    (a ++ b) (oa ++ ob)) by (by apply Forall2_app).
  eexists. unfold process_tweets.
  rewrite (process_loop_ok _ _ _ Hrows). cbn [app]. by rewrite map_app.
Qed.

Lemma process_tweets_app_witness :
  exists ra rb,
    fst (process_tweets (sample_env two_tweets None None)
           [sample_tweet] empty_world) = inr ra
    /\ fst (process_tweets (sample_env two_tweets None None)
              [bare_tweet] empty_world) = inr rb
    /\ exists w',
         process_tweets (sample_env two_tweets None None)
           ([sample_tweet] ++ [bare_tweet]) empty_world
         = (inr (ra ++ rb), w').
Proof.
  eexists _, _. split; [vm_compute; reflexivity|].
  split; [vm_compute; reflexivity|].
  apply (process_tweets_app (sample_env two_tweets None None)
           [sample_tweet] [bare_tweet] empty_world _
           (snd (process_tweets (sample_env two_tweets None None)
                   [sample_tweet] empty_world)) _
           (snd (process_tweets (sample_env two_tweets None None)
                   [bare_tweet] empty_world)));
    vm_compute; reflexivity.
Defined.
